(** * CampyGo: the voice session, the action dispatch and the position simulation

    A shallow embedding of [App.tsx] (the React component [App]) and of the
    type declarations of [types.ts].

    Conventions of the embedding:
    - a JavaScript [number] is a real number ([R]); its truthiness test is
      [x <> 0];  [number | null] and optional fields are [option R];
    - a JavaScript string is a [string]; a string that may be [undefined]
      at run time is an [option string];
    - the [useState] cells are the fields of [AppState] and [VoiceState];
      the [useRef] cells and the browser adapters are the other fields of
      [World];
    - a callback of the component is a computation in the monad [M]
      (state plus JavaScript exceptions) over [World];
    - one [Event] is one turn of the browser event loop; [step] runs the
      handler and then [commit]s, i.e. re-renders and runs the effects
      that copy the state into [stateRef] and [processingRef];
    - [recognition.start()], the reply of the intent service and
      [Date.now()] are decided by the environment: they are arguments of
      the events and a field of [World];
    - the handlers of the forms, of the location and destination lookups
      and of the driver dashboard are the events of [UiEvent], which
      extend [Event]; an [async] function is cut at its [await]s, every
      part being one turn;
    - [MapComponent.tsx] is the module [MapComponent]: its refs are the
      record [Refs], a run of its effect is a function on [Refs], and
      what it asks of Leaflet and of the network is logged in
      [mapCalls]. *)

From Stdlib Require Import Bool List String Ascii ZArith Lia.
From Stdlib Require Import DecimalString.
From Stdlib Require Import Reals Lra.
Import ListNotations.

Set Implicit Arguments.

Local Open Scope string_scope.

(** ** Strings *)

(** [s.includes(sub)] and [s.indexOf(sub) === -1]. *)
Definition includes (s sub : string) : bool :=
  match String.index 0 sub s with
  | Some _ => true
  | None => false
  end.

(** Truthiness of a string that may be [undefined]. *)
Definition truthy_str (o : option string) : bool :=
  match o with
  | Some s => negb (String.eqb s "")
  | None => false
  end.

(** [o || d] for a string [o] that may be [undefined]. *)
Definition or_else (o : option string) (d : string) : string :=
  match o with
  | Some s => if String.eqb s "" then d else s
  | None => d
  end.

(** The character classes of the two regular expressions. *)
Definition is_digit (c : ascii) : bool :=
  let n := nat_of_ascii c in (48 <=? n)%nat && (n <=? 57)%nat.

Definition is_lower (c : ascii) : bool :=
  let n := nat_of_ascii c in (97 <=? n)%nat && (n <=? 122)%nat.

Definition is_upper (c : ascii) : bool :=
  let n := nat_of_ascii c in (65 <=? n)%nat && (n <=? 90)%nat.

Definition is_alnum (c : ascii) : bool :=
  is_lower c || is_upper c || is_digit c.

(** [s.replace(re, '')] for a global regular expression [re] that matches
    exactly one character of the class [cls]: every match is replaced by
    the empty string, every other character is copied. *)
Fixpoint replace_all (cls : ascii -> bool) (s : string) : string :=
  match s with
  | EmptyString => EmptyString
  | String c rest =>
      (if cls c then "" else String c "") ++ replace_all cls rest
  end.

(** [/\D/g] and [/[^a-zA-Z0-9]/g]. *)
Definition non_digit (c : ascii) : bool := negb (is_digit c).
Definition non_alnum (c : ascii) : bool := negb (is_alnum c).

(** [s.toUpperCase()]; the component applies it to what is left of the
    plate once everything but ASCII letters and digits is gone, so the
    ASCII letters are the only ones to map. *)
Definition toUpperCase_char (c : ascii) : ascii :=
  if is_lower c then ascii_of_nat (nat_of_ascii c - 32) else c.

Fixpoint toUpperCase (s : string) : string :=
  match s with
  | EmptyString => EmptyString
  | String c rest => String (toUpperCase_char c) (toUpperCase rest)
  end.

(** Template literal interpolation of a star count. *)
Definition string_of_nat (n : nat) : string :=
  NilEmpty.string_of_uint (Nat.to_uint n).

(** ** Numbers *)

Local Open Scope R_scope.

Definition number := R.

(** [!!x] for a number. *)
Definition truthy (x : number) : bool :=
  if Req_dec_T x 0 then false else true.

(** [!!x] for [number | null] and [number | undefined]. *)
Definition truthy_opt (o : option number) : bool :=
  match o with
  | Some x => truthy x
  | None => false
  end.

(** [ToNumber] of a [number | null] read through a non-null assertion. *)
Definition to_number (o : option number) : number :=
  match o with
  | Some x => x
  | None => 0
  end.

(** ** types.ts *)

Inductive UserType := passenger | driver.

Inductive DriverStatus := online | offline.

Inductive View :=
| home
| passenger_register
| driver_register
| passenger_dashboard
| driver_dashboard
| searching
| trip_active
| rate_driver.

Definition view_name (v : View) : string :=
  match v with
  | home => "home"
  | passenger_register => "passenger-register"
  | driver_register => "driver-register"
  | passenger_dashboard => "passenger-dashboard"
  | driver_dashboard => "driver-dashboard"
  | searching => "searching"
  | trip_active => "trip-active"
  | rate_driver => "rate-driver"
  end.

Definition View_eqb (a b : View) : bool :=
  String.eqb (view_name a) (view_name b).

Inductive TripStatus := status_pending | status_searching | status_accepted.

Record Location := {
  lat : number;
  lng : number;
  accuracy : number
}.

Record Trip := {
  trip_id : Z;
  trip_pickupLat : number;
  trip_pickupLng : number;
  trip_pickupAddress : string;
  trip_destinationLat : number;
  trip_destinationLng : number;
  trip_destinationAddress : string;
  trip_status : TripStatus;
  trip_distance : number;
  trip_price : number;
  trip_passengerName : option string;
  trip_passengerPhone : option string;
  trip_passengerPhoto : option string;
  trip_driverName : option string;
  trip_driverPhone : option string;
  trip_driverPlate : option string;
  driverLat : option number;
  driverLng : option number;
  trip_driverPhoto : option string
}.

Record DriverProfile := {
  driver_name : option string;
  driver_documentNumber : string;
  driver_phone : string;
  driver_plate : string;
  driver_rating : number;
  completedTrips : Z;
  driver_photo : option string;
  vehiclePhotos : list string
}.

Record PassengerProfile := {
  passenger_name : option string;
  passenger_documentNumber : string;
  passenger_phone : string;
  passenger_rating : number;
  passenger_photo : option string
}.

Record TripRequest := {
  pickupLat : option number;
  pickupLng : option number;
  pickupAddress : string;
  destinationLat : option number;
  destinationLng : option number;
  destinationAddress : string;
  distance : number;
  price : number
}.

(** The object literal written in [completeTrip], [submitRating] and in
    the initial [useState]. *)
Definition emptyTripRequest : TripRequest :=
  {| pickupLat := None; pickupLng := None; pickupAddress := "";
     destinationLat := None; destinationLng := None;
     destinationAddress := ""; distance := 0; price := 0 |}.

(** ** The state of the component *)

(** The [useState] cells of the application proper. *)
Record AppState := {
  userType : option UserType;
  currentView : View;
  driverStatus : DriverStatus;
  trips : list Trip;
  activeTrip : option Trip;
  userLocation : option Location;
  isFetchingLocation : bool;
  driverProfile : DriverProfile;
  passengerProfile : PassengerProfile;
  tripRequest : TripRequest
}.

(** The [useState] cells under "Voice Assistant State". *)
Record VoiceState := {
  isListening : bool;
  isProcessing : bool;
  transcript : string;
  aiSpeaking : bool;
  voiceActive : bool
}.

(** The object stored in [stateRef.current]. *)
Record Snapshot := {
  snap_currentView : View;
  snap_userType : option UserType;
  snap_driverProfile : DriverProfile;
  snap_passengerProfile : PassengerProfile;
  snap_tripRequest : TripRequest;
  snap_activeTrip : option Trip;
  snap_aiSpeaking : bool;
  snap_voiceActive : bool;
  snap_userLocation : option Location;
  snap_isListening : bool
}.

(** What a thrown value exposes to the [catch] clauses: [e.error] and
    [e.message]. *)
Record JsError := {
  error : option string;
  message : option string
}.

Definition Error (msg : string) : JsError :=
  {| error := None; message := Some msg |}.

(** Calls that leave the component: the capture adapter, the synthesis
    adapter, the console, the intent service and the asynchronous
    destination resolver. *)
Inductive Call :=
| RecognitionStart
| RecognitionStop
| SynthCancel
| SynthSpeak (text : string)
| ConsoleLog (msg : string)
| ConsoleError
| GenerateContent (text : string)
| HandleSetDestination (overrideQuery : option string).

(** The callbacks handed to [setTimeout]. *)
Inductive Timeout :=
| SpeakTimeout (text : string)      (* 50 ms, in [speak] *)
| ResumeTimeout                     (* 200 ms, [startListening] *)
| TripAcceptedTimeout.              (* 4000 ms, in [requestTrip] *)

Record World := {
  app : AppState;
  voice : VoiceState;
  stateRef : Snapshot;
  processingRef : bool;
  (* [heartbeatRef.current] holds a live interval *)
  heartbeatRef : bool;
  (* the simulation effect holds a live interval *)
  simInterval : bool;
  (* [recognitionRef.current] is set: the browser has speech recognition *)
  recognitionRef : bool;
  (* utterances handed to [speechSynthesis], spoken or queued *)
  synthQueue : list string;
  (* pending [setTimeout] callbacks *)
  timeouts : list Timeout;
  (* calls of [getGeminiResponse] awaiting the service, with the
     [currentState] argument each was given *)
  pendingAi : list (string * Snapshot);
  (* [Date.now()] *)
  now : Z;
  (* trace of outgoing calls, oldest first *)
  calls : list Call
}.

(** *** Field updates *)

Definition set_userType x (a : AppState) : AppState :=
  {| userType := x; currentView := currentView a;
     driverStatus := driverStatus a; trips := trips a;
     activeTrip := activeTrip a; userLocation := userLocation a;
     isFetchingLocation := isFetchingLocation a;
     driverProfile := driverProfile a;
     passengerProfile := passengerProfile a;
     tripRequest := tripRequest a |}.

Definition set_currentView x (a : AppState) : AppState :=
  {| userType := userType a; currentView := x;
     driverStatus := driverStatus a; trips := trips a;
     activeTrip := activeTrip a; userLocation := userLocation a;
     isFetchingLocation := isFetchingLocation a;
     driverProfile := driverProfile a;
     passengerProfile := passengerProfile a;
     tripRequest := tripRequest a |}.

Definition set_driverStatus x (a : AppState) : AppState :=
  {| userType := userType a; currentView := currentView a;
     driverStatus := x; trips := trips a;
     activeTrip := activeTrip a; userLocation := userLocation a;
     isFetchingLocation := isFetchingLocation a;
     driverProfile := driverProfile a;
     passengerProfile := passengerProfile a;
     tripRequest := tripRequest a |}.

Definition set_activeTrip x (a : AppState) : AppState :=
  {| userType := userType a; currentView := currentView a;
     driverStatus := driverStatus a; trips := trips a;
     activeTrip := x; userLocation := userLocation a;
     isFetchingLocation := isFetchingLocation a;
     driverProfile := driverProfile a;
     passengerProfile := passengerProfile a;
     tripRequest := tripRequest a |}.

Definition set_driverProfile x (a : AppState) : AppState :=
  {| userType := userType a; currentView := currentView a;
     driverStatus := driverStatus a; trips := trips a;
     activeTrip := activeTrip a; userLocation := userLocation a;
     isFetchingLocation := isFetchingLocation a;
     driverProfile := x;
     passengerProfile := passengerProfile a;
     tripRequest := tripRequest a |}.

Definition set_passengerProfile x (a : AppState) : AppState :=
  {| userType := userType a; currentView := currentView a;
     driverStatus := driverStatus a; trips := trips a;
     activeTrip := activeTrip a; userLocation := userLocation a;
     isFetchingLocation := isFetchingLocation a;
     driverProfile := driverProfile a;
     passengerProfile := x;
     tripRequest := tripRequest a |}.

Definition set_tripRequest x (a : AppState) : AppState :=
  {| userType := userType a; currentView := currentView a;
     driverStatus := driverStatus a; trips := trips a;
     activeTrip := activeTrip a; userLocation := userLocation a;
     isFetchingLocation := isFetchingLocation a;
     driverProfile := driverProfile a;
     passengerProfile := passengerProfile a;
     tripRequest := x |}.

Definition set_isListening x (v : VoiceState) : VoiceState :=
  {| isListening := x; isProcessing := isProcessing v;
     transcript := transcript v; aiSpeaking := aiSpeaking v;
     voiceActive := voiceActive v |}.

Definition set_isProcessing x (v : VoiceState) : VoiceState :=
  {| isListening := isListening v; isProcessing := x;
     transcript := transcript v; aiSpeaking := aiSpeaking v;
     voiceActive := voiceActive v |}.

Definition set_transcript x (v : VoiceState) : VoiceState :=
  {| isListening := isListening v; isProcessing := isProcessing v;
     transcript := x; aiSpeaking := aiSpeaking v;
     voiceActive := voiceActive v |}.

Definition set_aiSpeaking x (v : VoiceState) : VoiceState :=
  {| isListening := isListening v; isProcessing := isProcessing v;
     transcript := transcript v; aiSpeaking := x;
     voiceActive := voiceActive v |}.

Definition set_voiceActive x (v : VoiceState) : VoiceState :=
  {| isListening := isListening v; isProcessing := isProcessing v;
     transcript := transcript v; aiSpeaking := aiSpeaking v;
     voiceActive := x |}.

Definition with_app (f : AppState -> AppState) (w : World) : World :=
  {| app := f (app w); voice := voice w; stateRef := stateRef w;
     processingRef := processingRef w; heartbeatRef := heartbeatRef w;
     simInterval := simInterval w; recognitionRef := recognitionRef w;
     synthQueue := synthQueue w; timeouts := timeouts w;
     pendingAi := pendingAi w; now := now w; calls := calls w |}.

Definition with_voice (f : VoiceState -> VoiceState) (w : World) : World :=
  {| app := app w; voice := f (voice w); stateRef := stateRef w;
     processingRef := processingRef w; heartbeatRef := heartbeatRef w;
     simInterval := simInterval w; recognitionRef := recognitionRef w;
     synthQueue := synthQueue w; timeouts := timeouts w;
     pendingAi := pendingAi w; now := now w; calls := calls w |}.

Definition set_synthQueue x (w : World) : World :=
  {| app := app w; voice := voice w; stateRef := stateRef w;
     processingRef := processingRef w; heartbeatRef := heartbeatRef w;
     simInterval := simInterval w; recognitionRef := recognitionRef w;
     synthQueue := x; timeouts := timeouts w;
     pendingAi := pendingAi w; now := now w; calls := calls w |}.

Definition set_timeouts x (w : World) : World :=
  {| app := app w; voice := voice w; stateRef := stateRef w;
     processingRef := processingRef w; heartbeatRef := heartbeatRef w;
     simInterval := simInterval w; recognitionRef := recognitionRef w;
     synthQueue := synthQueue w; timeouts := x;
     pendingAi := pendingAi w; now := now w; calls := calls w |}.

Definition set_pendingAi x (w : World) : World :=
  {| app := app w; voice := voice w; stateRef := stateRef w;
     processingRef := processingRef w; heartbeatRef := heartbeatRef w;
     simInterval := simInterval w; recognitionRef := recognitionRef w;
     synthQueue := synthQueue w; timeouts := timeouts w;
     pendingAi := x; now := now w; calls := calls w |}.

Definition set_calls x (w : World) : World :=
  {| app := app w; voice := voice w; stateRef := stateRef w;
     processingRef := processingRef w; heartbeatRef := heartbeatRef w;
     simInterval := simInterval w; recognitionRef := recognitionRef w;
     synthQueue := synthQueue w; timeouts := timeouts w;
     pendingAi := pendingAi w; now := now w; calls := x |}.

(** ** The monad of callbacks: state and exceptions *)

Inductive Completion (A : Type) :=
| Normal (a : A)
| Thrown (e : JsError).

Arguments Normal {A} a.
Arguments Thrown {A} e.

Definition M (A : Type) := World -> Completion A * World.

Definition ret {A} (a : A) : M A := fun w => (Normal a, w).

Definition bind {A B} (c : M A) (k : A -> M B) : M B :=
  fun w =>
    match c w with
    | (Normal a, w') => k a w'
    | (Thrown e, w') => (Thrown e, w')
    end.

Definition throw {A} (e : JsError) : M A := fun w => (Thrown e, w).

(** [try { c } catch (e) { h e }] *)
Definition try_catch {A} (c : M A) (h : JsError -> M A) : M A :=
  fun w =>
    match c w with
    | (Normal a, w') => (Normal a, w')
    | (Thrown e, w') => h e w'
    end.

Definition gets {A} (f : World -> A) : M A := fun w => (Normal (f w), w).

Definition modify (f : World -> World) : M unit :=
  fun w => (Normal tt, f w).

Declare Scope js_scope.
Delimit Scope js_scope with js.

Notation "x <- c ;; k" := (bind c (fun x => k))
  (at level 100, c at next level, right associativity) : js_scope.
Notation "c ;; k" := (bind c (fun _ => k))
  (at level 100, right associativity) : js_scope.

Local Open Scope js_scope.

(** The world a callback leaves behind, whether it returned or threw. *)
Definition exec {A} (c : M A) (w : World) : World := snd (c w).

Definition call (c : Call) : M unit :=
  modify (fun w => set_calls (calls w ++ [c]) w).

Definition setTimeout (t : Timeout) : M unit :=
  modify (fun w => set_timeouts (timeouts w ++ [t]) w).

(** The state setters. *)
Definition setUserType x := modify (with_app (set_userType x)).
Definition setCurrentView x := modify (with_app (set_currentView x)).
Definition setDriverStatus x := modify (with_app (set_driverStatus x)).
Definition setActiveTrip x := modify (with_app (set_activeTrip x)).
Definition setTripRequest x := modify (with_app (set_tripRequest x)).
Definition setIsListening x := modify (with_voice (set_isListening x)).
Definition setIsProcessing x := modify (with_voice (set_isProcessing x)).
Definition setTranscript x := modify (with_voice (set_transcript x)).
Definition setAiSpeaking x := modify (with_voice (set_aiSpeaking x)).
Definition setVoiceActive x := modify (with_voice (set_voiceActive x)).

(** The setters called with an updater function [p => ...]. *)
Definition setDriverProfile (f : DriverProfile -> DriverProfile) :=
  modify (with_app (fun a => set_driverProfile (f (driverProfile a)) a)).
Definition setPassengerProfile (f : PassengerProfile -> PassengerProfile) :=
  modify (with_app (fun a => set_passengerProfile (f (passengerProfile a)) a)).

(** ** The voice session *)

(** What [recognition.start()] does when it is reached: the browser
    decides. *)
Inductive StartOutcome :=
| Started
| StartThrows (e : JsError).

Definition recognition_start (o : StartOutcome) : M unit :=
  call RecognitionStart ;;
  match o with
  | Started => ret tt
  | StartThrows e => throw e
  end.

Definition recognition_stop : M unit := call RecognitionStop.

(** [e.error !== 'not-allowed' && e.message?.indexOf('active') === -1],
    the test of the [catch] clause of [startListening]. *)
Definition worth_logging (e : JsError) : bool :=
  negb (match error e with
        | Some s => String.eqb s "not-allowed"
        | None => false
        end)
  && match message e with
     | Some m => negb (includes m "active")
     | None => false
     end.

Definition startListening (o : StartOutcome) : M unit :=
  rec <- gets recognitionRef ;;
  if negb rec then ret tt else
  ref <- gets stateRef ;;
  processing <- gets processingRef ;;
  if snap_aiSpeaking ref || processing || snap_isListening ref then ret tt else
  try_catch
    (recognition_start o ;;
     setIsListening true)
    (fun e =>
       (* both branches are empty: the logging line is commented out *)
       if worth_logging e then ret tt else ret tt).

Definition stopListening : M unit :=
  rec <- gets recognitionRef ;;
  (if rec then try_catch recognition_stop (fun _ => ret tt) else ret tt) ;;
  setIsListening false.

(** The interval callback of the heartbeat effect. *)
Definition heartbeat (o : StartOutcome) : M unit :=
  ref <- gets stateRef ;;
  processing <- gets processingRef ;;
  if negb (snap_isListening ref) && negb (snap_aiSpeaking ref)
     && negb processing
  then call (ConsoleLog "Heartbeat: Restarting voice...") ;;
       startListening o
  else ret tt.

(** [synthRef.current.speaking || synthRef.current.pending] *)
Definition synth_busy (w : World) : bool :=
  match synthQueue w with
  | [] => false
  | _ :: _ => true
  end.

Definition synth_cancel : M unit :=
  call SynthCancel ;;
  modify (set_synthQueue []).

Definition synth_speak (text : string) : M unit :=
  call (SynthSpeak text) ;;
  modify (fun w => set_synthQueue (synthQueue w ++ [text]) w).

Definition speak (text : string) : M unit :=
  busy <- gets synth_busy ;;
  (if busy then synth_cancel else ret tt) ;;
  stopListening ;;
  setAiSpeaking true ;;
  setIsProcessing false ;;
  setTimeout (SpeakTimeout text).

(** The body of the 50 ms timeout of [speak]: the utterance is built and
    handed to the synthesiser. *)
Definition speak_timeout (text : string) : M unit :=
  synth_speak text.

(** [utterance.onend] and [utterance.onerror]. *)
Definition resumeListening : M unit :=
  setAiSpeaking false ;;
  ref <- gets stateRef ;;
  if snap_voiceActive ref then setTimeout ResumeTimeout else ret tt.

(** The handlers installed on the recognition object. *)
Definition recognition_onstart : M unit := setIsListening true.

Definition recognition_onend : M unit := setIsListening false.

Definition recognition_onerror (code : string) : M unit :=
  if negb (String.eqb code "no-speech") then setIsListening false
  else ret tt.

Definition greeting : string :=
  "Hola, soy tu asistente. Dime tu nombre o a dónde quieres ir.".

Definition toggleVoiceAssistant : M unit :=
  active <- gets (fun w => voiceActive (voice w)) ;;
  let newState := negb active in
  setVoiceActive newState ;;
  if newState then speak greeting
  else
    synth_cancel ;;
    stopListening ;;
    setAiSpeaking false ;;
    setTranscript "".

(** ** Standard app functions *)

(** [handleSetDestination(overrideQuery)] is [async] and is not awaited by
    its callers; it geolocates, draws a random nearby point and writes the
    destination of the trip request.  Here its call is recorded.  Its
    body is [handleSetDestination_start] below, which the event
    [DestinationCalled] runs as a turn of its own, with the results of
    [Math.random()] and the location service that the turn needs; in
    the browser the part up to the first [await] runs inside the
    calling turn.  That part writes [isFetchingLocation] and the
    destination of the trip request and nothing else. *)
Definition handleSetDestination (overrideQuery : option string) : M unit :=
  call (HandleSetDestination overrideQuery).

Definition newTrip (w : World) : Trip :=
  let ref := stateRef w in
  let req := snap_tripRequest ref in
  {| trip_id := now w;
     trip_pickupLat := to_number (pickupLat req);
     trip_pickupLng := to_number (pickupLng req);
     trip_pickupAddress := pickupAddress req;
     trip_destinationLat := to_number (destinationLat req);
     trip_destinationLng := to_number (destinationLng req);
     trip_destinationAddress := destinationAddress req;
     trip_status := status_searching;
     trip_distance := distance req;
     trip_price := price req;
     trip_passengerName := passenger_name (snap_passengerProfile ref);
     trip_passengerPhone := Some (passenger_phone (snap_passengerProfile ref));
     trip_passengerPhoto := passenger_photo (snap_passengerProfile ref);
     trip_driverName := None;
     trip_driverPhone := None;
     trip_driverPlate := None;
     driverLat := None;
     driverLng := None;
     trip_driverPhoto := None |}.

Definition requestTrip : M unit :=
  ref <- gets stateRef ;;
  if negb (truthy_opt (pickupLat (snap_tripRequest ref)))
     || negb (truthy_opt (destinationLat (snap_tripRequest ref)))
  then speak "Primero necesito saber a dónde vas."
  else
    t <- gets newTrip ;;
    setActiveTrip (Some t) ;;
    setCurrentView searching ;;
    setTimeout TripAcceptedTimeout.

(** The updater of the 4000 ms timeout of [requestTrip]. *)
Definition accept_trip (prev : Trip) : Trip :=
  {| trip_id := trip_id prev;
     trip_pickupLat := trip_pickupLat prev;
     trip_pickupLng := trip_pickupLng prev;
     trip_pickupAddress := trip_pickupAddress prev;
     trip_destinationLat := trip_destinationLat prev;
     trip_destinationLng := trip_destinationLng prev;
     trip_destinationAddress := trip_destinationAddress prev;
     trip_status := status_accepted;
     trip_distance := trip_distance prev;
     trip_price := trip_price prev;
     trip_passengerName := trip_passengerName prev;
     trip_passengerPhone := trip_passengerPhone prev;
     trip_passengerPhoto := trip_passengerPhoto prev;
     trip_driverName := Some "Juan Pérez";
     trip_driverPhone := Some "310 555 1234";
     trip_driverPlate := Some "XYZ-123";
     driverLat := Some (trip_pickupLat prev - 0.005);
     driverLng := Some (trip_pickupLng prev - 0.005);
     trip_driverPhoto :=
       Some "https://ui-avatars.com/api/?name=Juan+P&background=0D8ABC&color=fff" |}.

(** The 4000 ms timeout of [requestTrip].  The updater passed to
    [setActiveTrip] dereferences [prev], which is [null] when the search
    was cancelled meanwhile: the dereference is inside the updater, so
    the callback itself goes on, opens the trip view and speaks, and no
    trip is stored. *)
Definition trip_accepted_timeout : M unit :=
  prev <- gets (fun w => activeTrip (app w)) ;;
  match prev with
  | None => ret tt
  | Some t => setActiveTrip (Some (accept_trip t))
  end ;;
  setCurrentView trip_active ;;
  speak "¡Conductor encontrado! Juan viene en camino.".

Definition submitRating (rating : nat) : M unit :=
  setActiveTrip None ;;
  setTripRequest emptyTripRequest ;;
  setCurrentView passenger_dashboard ;;
  speak ("Gracias por calificar con " ++ string_of_nat rating ++ " estrellas.").

Definition bump_completedTrips (prev : DriverProfile) : DriverProfile :=
  {| driver_name := driver_name prev;
     driver_documentNumber := driver_documentNumber prev;
     driver_phone := driver_phone prev;
     driver_plate := driver_plate prev;
     driver_rating := driver_rating prev;
     completedTrips := (completedTrips prev + 1)%Z;
     driver_photo := driver_photo prev;
     vehiclePhotos := vehiclePhotos prev |}.

Definition completeTrip : M unit :=
  ut <- gets (fun w => userType (app w)) ;;
  match ut with
  | Some passenger =>
      setCurrentView rate_driver ;;
      speak "Hemos llegado. ¿Cuántas estrellas para el conductor?"
  | _ =>
      setDriverProfile bump_completedTrips ;;
      setActiveTrip None ;;
      setTripRequest emptyTripRequest ;;
      setCurrentView driver_dashboard ;;
      speak "Viaje terminado."
  end.

Definition goBack : M unit :=
  ref <- gets stateRef ;;
  let view := snap_currentView ref in
  if includes (view_name view) "register" then
    setCurrentView home ;; setUserType None
  else if View_eqb view searching then
    setCurrentView passenger_dashboard ;; setActiveTrip None
  else if View_eqb view driver_dashboard then
    setCurrentView home ;; setDriverStatus offline ;; setUserType None
  else if View_eqb view passenger_dashboard then
    setCurrentView home ;; setUserType None
  else if View_eqb view rate_driver then
    submitRating 5
  else ret tt.

(** The two buttons of the home view. *)
Definition passenger_click : M unit :=
  setUserType (Some passenger) ;; setCurrentView passenger_register.

Definition driver_click : M unit :=
  setUserType (Some driver) ;; setCurrentView driver_register.

(** The "Continuar" button of the two registration views. *)
Definition continue_click : M unit :=
  a <- gets app ;;
  let isDriver := View_eqb (currentView a) driver_register in
  let name := if isDriver then driver_name (driverProfile a)
              else passenger_name (passengerProfile a) in
  if truthy_str name
  then setCurrentView (if isDriver then driver_dashboard
                       else passenger_dashboard)
  else speak "Por favor di tu nombre primero.".

(** ** The Gemini interpreter *)

(** The case labels of the action [switch]. *)
Inductive ActionKind :=
| NAVIGATE_PASSENGER_REG
| NAVIGATE_DRIVER_REG
| SET_PASSENGER_NAME
| SET_DRIVER_NAME
| SET_PASSENGER_PHONE
| SET_DRIVER_PHONE
| SET_DRIVER_PLATE
| NAVIGATE_DESTINATION
| CONFIRM_TRIP
| CANCEL.

Definition action_label (a : ActionKind) : string :=
  match a with
  | NAVIGATE_PASSENGER_REG => "NAVIGATE_PASSENGER_REG"
  | NAVIGATE_DRIVER_REG => "NAVIGATE_DRIVER_REG"
  | SET_PASSENGER_NAME => "SET_PASSENGER_NAME"
  | SET_DRIVER_NAME => "SET_DRIVER_NAME"
  | SET_PASSENGER_PHONE => "SET_PASSENGER_PHONE"
  | SET_DRIVER_PHONE => "SET_DRIVER_PHONE"
  | SET_DRIVER_PLATE => "SET_DRIVER_PLATE"
  | NAVIGATE_DESTINATION => "NAVIGATE_DESTINATION"
  | CONFIRM_TRIP => "CONFIRM_TRIP"
  | CANCEL => "CANCEL"
  end.

Definition all_actions : list ActionKind :=
  [NAVIGATE_PASSENGER_REG; NAVIGATE_DRIVER_REG; SET_PASSENGER_NAME;
   SET_DRIVER_NAME; SET_PASSENGER_PHONE; SET_DRIVER_PHONE; SET_DRIVER_PLATE;
   NAVIGATE_DESTINATION; CONFIRM_TRIP; CANCEL].

(** [switch (data.action)]: the first case whose label is the string, if
    any ("NONE" and unknown strings select no case). *)
Definition switch_action (s : string) : option ActionKind :=
  find (fun a => String.eqb s (action_label a)) all_actions.

(** The object [JSON.parse] returns for a reply that follows the response
    schema: three properties, each a string when present. *)
Record AiData := {
  speech : option string;
  action : option string;
  value : option string
}.

(** How the call of the intent service ends: the promise rejects (network
    failure, timeout), or it resolves to a response with its [text] and
    with what [JSON.parse] makes of that text. *)
Inductive ParseResult :=
| SyntaxError
| Parsed (data : AiData).

Inductive AiReply :=
| CallRejected (e : JsError)
| CallResolved (text : option string) (parsed : ParseResult).

(** [data.value.replace(...)]: a [TypeError] when [data.value] is
    [undefined]. *)
Definition value_string (data : AiData) : M string :=
  match value data with
  | Some v => ret v
  | None => throw (Error "Cannot read properties of undefined")
  end.

Definition with_passenger_name x (p : PassengerProfile) : PassengerProfile :=
  {| passenger_name := x;
     passenger_documentNumber := passenger_documentNumber p;
     passenger_phone := passenger_phone p;
     passenger_rating := passenger_rating p;
     passenger_photo := passenger_photo p |}.

Definition with_passenger_phone x (p : PassengerProfile) : PassengerProfile :=
  {| passenger_name := passenger_name p;
     passenger_documentNumber := passenger_documentNumber p;
     passenger_phone := x;
     passenger_rating := passenger_rating p;
     passenger_photo := passenger_photo p |}.

Definition with_driver_name x (p : DriverProfile) : DriverProfile :=
  {| driver_name := x;
     driver_documentNumber := driver_documentNumber p;
     driver_phone := driver_phone p;
     driver_plate := driver_plate p;
     driver_rating := driver_rating p;
     completedTrips := completedTrips p;
     driver_photo := driver_photo p;
     vehiclePhotos := vehiclePhotos p |}.

Definition with_driver_phone x (p : DriverProfile) : DriverProfile :=
  {| driver_name := driver_name p;
     driver_documentNumber := driver_documentNumber p;
     driver_phone := x;
     driver_plate := driver_plate p;
     driver_rating := driver_rating p;
     completedTrips := completedTrips p;
     driver_photo := driver_photo p;
     vehiclePhotos := vehiclePhotos p |}.

Definition with_driver_plate x (p : DriverProfile) : DriverProfile :=
  {| driver_name := driver_name p;
     driver_documentNumber := driver_documentNumber p;
     driver_phone := driver_phone p;
     driver_plate := x;
     driver_rating := driver_rating p;
     completedTrips := completedTrips p;
     driver_photo := driver_photo p;
     vehiclePhotos := vehiclePhotos p |}.

(** The body of one [case] of the action [switch]. *)
Definition execute_action (a : ActionKind) (data : AiData)
    (currentState : Snapshot) : M unit :=
  match a with
  | NAVIGATE_PASSENGER_REG =>
      setUserType (Some passenger) ;;
      setCurrentView passenger_register
  | NAVIGATE_DRIVER_REG =>
      setUserType (Some driver) ;;
      setCurrentView driver_register
  | SET_PASSENGER_NAME =>
      if View_eqb (snap_currentView currentState) passenger_register
         || View_eqb (snap_currentView currentState) home
      then
        (if View_eqb (snap_currentView currentState) home
         then setUserType (Some passenger) ;;
              setCurrentView passenger_register
         else ret tt) ;;
        setPassengerProfile (with_passenger_name (value data))
      else ret tt
  | SET_DRIVER_NAME =>
      if View_eqb (snap_currentView currentState) driver_register
         || View_eqb (snap_currentView currentState) home
      then
        (if View_eqb (snap_currentView currentState) home
         then setUserType (Some driver) ;;
              setCurrentView driver_register
         else ret tt) ;;
        setDriverProfile (with_driver_name (value data))
      else ret tt
  | SET_PASSENGER_PHONE =>
      v <- value_string data ;;
      let cleanPhoneP := replace_all non_digit v in
      setPassengerProfile (with_passenger_phone cleanPhoneP)
  | SET_DRIVER_PHONE =>
      v <- value_string data ;;
      let cleanPhoneD := replace_all non_digit v in
      setDriverProfile (with_driver_phone cleanPhoneD)
  | SET_DRIVER_PLATE =>
      v <- value_string data ;;
      let cleanPlate := toUpperCase (replace_all non_alnum v) in
      setDriverProfile (with_driver_plate cleanPlate)
  | NAVIGATE_DESTINATION =>
      (if View_eqb (snap_currentView currentState) passenger_register
       then setCurrentView passenger_dashboard
       else ret tt) ;;
      handleSetDestination (value data)
  | CONFIRM_TRIP =>
      if View_eqb (snap_currentView currentState) passenger_dashboard
         && truthy_opt (destinationLat (snap_tripRequest currentState))
      then requestTrip
      else ret tt
  | CANCEL => goBack
  end.

(** The part of [getGeminiResponse] that follows
    [await ai.models.generateContent(...)]. *)
Definition getGeminiResponse_resume (reply : AiReply)
    (currentState : Snapshot) (o : StartOutcome) : M unit :=
  match reply with
  | CallRejected e => throw e
  | CallResolved resultText parsed =>
      if negb (truthy_str resultText)
      then throw (Error "No response from AI")
      else
        match parsed with
        | SyntaxError => throw (Error "Unexpected token in JSON")
        | Parsed data =>
            call (ConsoleLog "AI Action:") ;;
            (* shouldSpeak is never reassigned *)
            let shouldSpeak := true in
            (if truthy_str (action data) then
               match action data with
               | Some s =>
                   match switch_action s with
                   | Some a => execute_action a data currentState
                   | None => ret tt
                   end
               | None => ret tt
               end
             else ret tt) ;;
            if shouldSpeak
            then speak (or_else (speech data) "Entendido.")
            else
              setIsProcessing false ;;
              active <- gets (fun w => voiceActive (voice w)) ;;
              if active then startListening o else ret tt
        end
  end.

(** The part of [getGeminiResponse] before the first [await]: the prompt
    is built and the request is sent. *)
Definition getGeminiResponse_send (text : string)
    (currentState : Snapshot) : M unit :=
  call (GenerateContent text) ;;
  modify (fun w => set_pendingAi (pendingAi w ++ [(text, currentState)]) w).

(** [processVoiceCommand] up to its [await]. *)
Definition processVoiceCommand (text : string) : M unit :=
  setTranscript text ;;
  setIsProcessing true ;;
  currentState <- gets stateRef ;;
  getGeminiResponse_send text currentState.

(** [processVoiceCommand] from its [await] on, for the oldest call in
    flight: the [try] around [getGeminiResponse] and its [catch]. *)
Definition processVoiceCommand_resume (reply : AiReply)
    (o : StartOutcome) : M unit :=
  pending <- gets pendingAi ;;
  match pending with
  | [] => ret tt
  | (_, currentState) :: rest =>
      modify (set_pendingAi rest) ;;
      try_catch
        (getGeminiResponse_resume reply currentState o)
        (fun e =>
           call ConsoleError ;;
           setIsProcessing false ;;
           ref <- gets stateRef ;;
           if snap_voiceActive ref then startListening o else ret tt)
  end.

(** The low six bits of a continuation byte of UTF-8. *)
Definition continuation (c : ascii) : N := (N_of_ascii c mod 64)%N.

(** The code points of a string, which is held as the UTF-8 bytes of the
    JavaScript string.  A byte that cannot start a sequence and a
    sequence cut short by the end of the string, which the encoding of a
    JavaScript string never holds, give U+FFFD. *)
Fixpoint code_points (s : string) : list N :=
  match s with
  | EmptyString => []
  | String a r1 =>
      let n := N_of_ascii a in
      if (n <? 128)%N then n :: code_points r1
      else if (n <? 192)%N then 65533%N :: code_points r1
      else if (n <? 224)%N then
        match r1 with
        | String b r2 =>
            ((n - 192) * 64 + continuation b)%N :: code_points r2
        | EmptyString => [65533%N]
        end
      else if (n <? 240)%N then
        match r1 with
        | String b (String c r3) =>
            ((n - 224) * 4096 + continuation b * 64 + continuation c)%N
            :: code_points r3
        | _ => [65533%N]
        end
      else
        match r1 with
        | String b (String c (String d r4)) =>
            ((n - 240) * 262144 + continuation b * 4096
             + continuation c * 64 + continuation d)%N
            :: code_points r4
        | _ => [65533%N]
        end
  end.

(** The code points [String.prototype.trim] strips: the WhiteSpace and
    LineTerminator productions of ECMAScript, that is TAB, LF, VT, FF,
    CR, SP, U+00A0, U+1680, U+2000 to U+200A, U+2028, U+2029, U+202F,
    U+205F, U+3000 and U+FEFF.  All of them lie in the basic plane, so a
    code point is stripped exactly when its UTF-16 units are. *)
Definition white_space (cp : N) : bool :=
  ((9 <=? cp) && (cp <=? 13)
   || (cp =? 32) || (cp =? 160) || (cp =? 5760)
   || (8192 <=? cp) && (cp <=? 8202)
   || (cp =? 8232) || (cp =? 8233) || (cp =? 8239) || (cp =? 8287)
   || (cp =? 12288) || (cp =? 65279))%N.

(** [s.trim().length > 0]: something is left once the white space at
    both ends is gone, that is some code point is not white space. *)
Definition has_non_space (s : string) : bool :=
  existsb (fun cp => negb (white_space cp)) (code_points s).

Definition recognition_onresult (result : string) : M unit :=
  if has_non_space result then processVoiceCommand result else ret tt.

(** ** The simulation engine *)

(** [Math.atan2(y, x)] on the reals. *)
Definition atan2 (y x : R) : R :=
  if Rlt_dec 0 x then atan (y / x)
  else if Rlt_dec x 0 then
    if Rle_dec 0 y then atan (y / x) + PI else atan (y / x) - PI
  else if Rlt_dec 0 y then PI / 2
  else if Rlt_dec y 0 then - (PI / 2)
  else 0.

(** [{ ...prev, driverLat: y, driverLng: x }] *)
Definition with_driver_position (y x : number) (prev : Trip) : Trip :=
  {| trip_id := trip_id prev;
     trip_pickupLat := trip_pickupLat prev;
     trip_pickupLng := trip_pickupLng prev;
     trip_pickupAddress := trip_pickupAddress prev;
     trip_destinationLat := trip_destinationLat prev;
     trip_destinationLng := trip_destinationLng prev;
     trip_destinationAddress := trip_destinationAddress prev;
     trip_status := trip_status prev;
     trip_distance := trip_distance prev;
     trip_price := trip_price prev;
     trip_passengerName := trip_passengerName prev;
     trip_passengerPhone := trip_passengerPhone prev;
     trip_passengerPhoto := trip_passengerPhoto prev;
     trip_driverName := trip_driverName prev;
     trip_driverPhone := trip_driverPhone prev;
     trip_driverPlate := trip_driverPlate prev;
     driverLat := Some y;
     driverLng := Some x;
     trip_driverPhoto := trip_driverPhoto prev |}.

(** The updater passed to [setActiveTrip] on every tick. *)
Definition simulate (prev : option Trip) : option Trip :=
  match prev with
  | None => prev
  | Some t =>
      if negb (truthy_opt (driverLat t)) || negb (truthy_opt (driverLng t))
      then prev
      else
        let speed := 0.0005 in
        let targetLat := trip_pickupLat t in
        let targetLng := trip_pickupLng t in
        let dy := targetLat - to_number (driverLat t) in
        let dx := targetLng - to_number (driverLng t) in
        let distance := sqrt (dx * dx + dy * dy) in
        if Rlt_dec distance 0.0005 then
          Some (with_driver_position targetLat targetLng t)
        else
          let angle := atan2 dy dx in
          let moveY := sin angle * speed in
          let moveX := cos angle * speed in
          Some (with_driver_position (to_number (driverLat t) + moveY)
                                     (to_number (driverLng t) + moveX) t)
  end.

Definition simulation_tick : M unit :=
  prev <- gets (fun w => activeTrip (app w)) ;;
  setActiveTrip (simulate prev).

(** ** Rendering and the event loop *)

Definition snapshot_of (w : World) : Snapshot :=
  {| snap_currentView := currentView (app w);
     snap_userType := userType (app w);
     snap_driverProfile := driverProfile (app w);
     snap_passengerProfile := passengerProfile (app w);
     snap_tripRequest := tripRequest (app w);
     snap_activeTrip := activeTrip (app w);
     snap_aiSpeaking := aiSpeaking (voice w);
     snap_voiceActive := voiceActive (voice w);
     snap_userLocation := userLocation (app w);
     snap_isListening := isListening (voice w) |}.

(** The condition under which the simulation effect starts its interval. *)
Definition simulation_runs (a : AppState) : bool :=
  match activeTrip a, userType a with
  | Some t, Some passenger =>
      match trip_status t with
      | status_accepted => true
      | _ => false
      end
  | _, _ => false
  end.

(** A render followed by its effects: the state is copied into
    [stateRef] and [processingRef]; the heartbeat interval lives exactly
    while [voiceActive]; the simulation interval lives exactly while its
    condition holds. *)
Definition commit (w : World) : World :=
  {| app := app w; voice := voice w;
     stateRef := snapshot_of w;
     processingRef := isProcessing (voice w);
     heartbeatRef := voiceActive (voice w);
     simInterval := simulation_runs (app w);
     recognitionRef := recognitionRef w;
     synthQueue := synthQueue w; timeouts := timeouts w;
     pendingAi := pendingAi w; now := now w; calls := calls w |}.

Definition Timeout_eqb (a b : Timeout) : bool :=
  match a, b with
  | SpeakTimeout s, SpeakTimeout t => String.eqb s t
  | ResumeTimeout, ResumeTimeout => true
  | TripAcceptedTimeout, TripAcceptedTimeout => true
  | _, _ => false
  end.

(** Removes the first pending timeout equal to [t]; [None] when there is
    none. *)
Fixpoint take_timeout (t : Timeout) (l : list Timeout) : option (list Timeout) :=
  match l with
  | [] => None
  | x :: rest =>
      if Timeout_eqb t x then Some rest
      else match take_timeout t rest with
           | Some rest' => Some (x :: rest')
           | None => None
           end
  end.

Definition timeout_callback (t : Timeout) (o : StartOutcome) : M unit :=
  match t with
  | SpeakTimeout text => speak_timeout text
  | ResumeTimeout => startListening o
  | TripAcceptedTimeout => trip_accepted_timeout
  end.

(** What the browser and the user can make happen.  The outcome [o] is
    what [recognition.start()] does if the handler reaches it.  The
    events of the two adapters and of the intent service come when the
    browser sends them; a timeout fires only while it is pending, the
    heartbeat and the simulation tick only while their interval lives. *)
Inductive Event :=
| VoiceButton
| HeartbeatTick (o : StartOutcome)
| TimeoutFires (t : Timeout) (o : StartOutcome)
| UtteranceEnd
| RecognitionStarted
| RecognitionEnded
| RecognitionResult (result : string)
| RecognitionError (code : string)
| IntentServiceReply (reply : AiReply) (o : StartOutcome)
| BackButton
| CompleteTripButton
| RatingButton (star : nat)
| RequestTripButton
| PassengerButton
| DriverButton
| ContinueButton
| SimulationTick.

Definition handler (e : Event) : M unit :=
  match e with
  | VoiceButton => toggleVoiceAssistant
  | HeartbeatTick o =>
      live <- gets heartbeatRef ;;
      if live then heartbeat o else ret tt
  | TimeoutFires t o =>
      pending <- gets timeouts ;;
      match take_timeout t pending with
      | Some rest => modify (set_timeouts rest) ;; timeout_callback t o
      | None => ret tt
      end
  | UtteranceEnd =>
      modify (fun w => set_synthQueue (tl (synthQueue w)) w) ;;
      resumeListening
  | RecognitionStarted => recognition_onstart
  | RecognitionEnded => recognition_onend
  | RecognitionResult result => recognition_onresult result
  | RecognitionError code => recognition_onerror code
  | IntentServiceReply reply o => processVoiceCommand_resume reply o
  | BackButton => goBack
  | CompleteTripButton => completeTrip
  | RatingButton star => submitRating star
  | RequestTripButton => requestTrip
  | PassengerButton => passenger_click
  | DriverButton => driver_click
  | ContinueButton => continue_click
  | SimulationTick =>
      live <- gets simInterval ;;
      if live then simulation_tick else ret tt
  end.

Definition step (w : World) (e : Event) : World :=
  commit (exec (handler e) w).

Definition run (w : World) (es : list Event) : World :=
  fold_left step es w.

(** The first render. *)
Definition initialApp : AppState :=
  {| userType := None; currentView := home; driverStatus := offline;
     trips := []; activeTrip := None; userLocation := None;
     isFetchingLocation := false;
     driverProfile :=
       {| driver_name := Some ""; driver_documentNumber := "";
          driver_phone := ""; driver_plate := ""; driver_rating := 4.8;
          completedTrips := 12; driver_photo := None;
          vehiclePhotos := [] |};
     passengerProfile :=
       {| passenger_name := Some ""; passenger_documentNumber := "";
          passenger_phone := ""; passenger_rating := 5.0;
          passenger_photo := None |};
     tripRequest := emptyTripRequest |}.

Definition initialVoice : VoiceState :=
  {| isListening := false; isProcessing := false; transcript := "";
     aiSpeaking := false; voiceActive := false |}.

Definition initialWorld (hasRecognition : bool) (clock : Z) : World :=
  commit
    {| app := initialApp; voice := initialVoice;
       stateRef :=
         {| snap_currentView := home; snap_userType := None;
            snap_driverProfile := driverProfile initialApp;
            snap_passengerProfile := passengerProfile initialApp;
            snap_tripRequest := emptyTripRequest;
            snap_activeTrip := None; snap_aiSpeaking := false;
            snap_voiceActive := false; snap_userLocation := None;
            snap_isListening := false |};
       processingRef := false; heartbeatRef := false;
       simInterval := false; recognitionRef := hasRecognition;
       synthQueue := []; timeouts := []; pendingAi := [];
       now := clock; calls := [] |}.

(** * The rest of the component *)

(** ** Geolocation and destination *)

(** [s.length]: the number of UTF-16 code units of a string held as
    UTF-8 bytes.  A continuation byte adds nothing, the lead byte of a
    four-byte sequence stands for a surrogate pair. *)
Definition utf16_units (c : ascii) : nat :=
  let n := nat_of_ascii c in
  if (n <? 128)%nat then 1%nat
  else if (n <? 192)%nat then 0%nat
  else if (n <? 240)%nat then 1%nat
  else 2%nat.

Fixpoint js_length (s : string) : nat :=
  match s with
  | EmptyString => 0%nat
  | String c rest => (utf16_units c + js_length rest)%nat
  end.

Definition set_trips x (a : AppState) : AppState :=
  {| userType := userType a; currentView := currentView a;
     driverStatus := driverStatus a; trips := x;
     activeTrip := activeTrip a; userLocation := userLocation a;
     isFetchingLocation := isFetchingLocation a;
     driverProfile := driverProfile a;
     passengerProfile := passengerProfile a;
     tripRequest := tripRequest a |}.

Definition set_userLocation x (a : AppState) : AppState :=
  {| userType := userType a; currentView := currentView a;
     driverStatus := driverStatus a; trips := trips a;
     activeTrip := activeTrip a; userLocation := x;
     isFetchingLocation := isFetchingLocation a;
     driverProfile := driverProfile a;
     passengerProfile := passengerProfile a;
     tripRequest := tripRequest a |}.

Definition set_isFetchingLocation x (a : AppState) : AppState :=
  {| userType := userType a; currentView := currentView a;
     driverStatus := driverStatus a; trips := trips a;
     activeTrip := activeTrip a; userLocation := userLocation a;
     isFetchingLocation := x;
     driverProfile := driverProfile a;
     passengerProfile := passengerProfile a;
     tripRequest := tripRequest a |}.

Definition setTrips x := modify (with_app (set_trips x)).
Definition setUserLocation x := modify (with_app (set_userLocation x)).
Definition setIsFetchingLocation x :=
  modify (with_app (set_isFetchingLocation x)).

(** [setTripRequest(prev => ...)] *)
Definition updateTripRequest (f : TripRequest -> TripRequest) :=
  modify (with_app (fun a => set_tripRequest (f (tripRequest a)) a)).

(** [{ ...prev, pickupLat: y, pickupLng: x, pickupAddress: address }] *)
Definition with_pickup (y x : number) (address : string)
    (prev : TripRequest) : TripRequest :=
  {| pickupLat := Some y; pickupLng := Some x; pickupAddress := address;
     destinationLat := destinationLat prev;
     destinationLng := destinationLng prev;
     destinationAddress := destinationAddress prev;
     distance := distance prev; price := price prev |}.

(** [{ ...prev, destinationLat, destinationLng, destinationAddress,
       distance, price }] *)
Definition with_destination (y x : number) (address : string)
    (d p : number) (prev : TripRequest) : TripRequest :=
  {| pickupLat := pickupLat prev; pickupLng := pickupLng prev;
     pickupAddress := pickupAddress prev;
     destinationLat := Some y; destinationLng := Some x;
     destinationAddress := address; distance := d; price := p |}.

(** [handleGetCurrentLocation] up to its first [await]. *)
Definition handleGetCurrentLocation_begin : M unit :=
  setIsFetchingLocation true.

(** [handleGetCurrentLocation] once [getCurrentLocation] and
    [getAddressFromCoords] have both answered ([Some]) or one of them
    has rejected ([None]): the rest of the [try], the [catch] and the
    [finally].  The optional time stamp of a location is left out. *)
Definition handleGetCurrentLocation_resume
    (answer : option (Location * string)) : M unit :=
  match answer with
  | Some (location, address) =>
      updateTripRequest (with_pickup (lat location) (lng location) address) ;;
      setUserLocation
        (Some {| lat := lat location; lng := lng location; accuracy := 10 |})
  | None => speak "No pude obtener tu ubicación. Verifica el GPS."
  end ;;
  setIsFetchingLocation false.

Section Destination.

(** [calculateDistance] and [calculatePrice] of the location service. *)
Variable calculateDistance : number -> number -> number -> number -> number.
Variable calculatePrice : number -> number.

(** [x || d] for a coordinate that may be [null]. *)
Definition coordinate_or (o : option number) (d : number) : number :=
  match o with
  | Some x => if truthy x then x else d
  | None => d
  end.

(** [overrideQuery && overrideQuery.length > 3] *)
Definition usable_query (overrideQuery : option string) : bool :=
  match overrideQuery with
  | Some q => negb (String.eqb q "") && (3 <? js_length q)%nat
  | None => false
  end.

(** What [handleSetDestination] holds across its last [await]. *)
Record PendingDestination := {
  baseLat : number;
  baseLng : number;
  demoLat : number;
  demoLng : number
}.

(** The end of [handleSetDestination], from [calculateDistance] on. *)
Definition handleSetDestination_finish (p : PendingDestination)
    (address : string) : M unit :=
  let distance :=
    calculateDistance (baseLat p) (baseLng p) (demoLat p) (demoLng p) in
  updateTripRequest
    (with_destination (demoLat p) (demoLng p) address distance
       (calculatePrice distance)) ;;
  setIsFetchingLocation false.

(** [handleSetDestination] after its first [if]: [random1] and
    [random2] are the two results of [Math.random()].  With a usable
    query it runs to its end and returns [None]; otherwise it stops at
    [await getAddressFromCoords(demoLat, demoLng)] and returns what it
    holds. *)
Definition handleSetDestination_locate (overrideQuery : option string)
    (random1 random2 : number) : M (option PendingDestination) :=
  setIsFetchingLocation true ;;
  ref <- gets stateRef ;;
  let baseLat := coordinate_or (pickupLat (snap_tripRequest ref)) 4.60 in
  let baseLng := coordinate_or (pickupLng (snap_tripRequest ref)) (-74.08) in
  let latOffset := (random1 - 0.5) * 0.03 in
  let lngOffset := (random2 - 0.5) * 0.03 in
  let demoLat := baseLat + latOffset in
  let demoLng := baseLng + lngOffset in
  let p := {| baseLat := baseLat; baseLng := baseLng;
              demoLat := demoLat; demoLng := demoLng |} in
  if usable_query overrideQuery then
    match overrideQuery with
    | Some q => handleSetDestination_finish p q ;; ret None
    | None => ret None
    end
  else ret (Some p).

(** The body of [handleSetDestination] up to its first [await]: with
    no pickup latitude it starts [handleGetCurrentLocation] and waits
    ([inl tt]); otherwise it goes on at once. *)
Definition handleSetDestination_start (overrideQuery : option string)
    (random1 random2 : number)
    : M (unit + option PendingDestination) :=
  ref <- gets stateRef ;;
  if negb (truthy_opt (pickupLat (snap_tripRequest ref)))
  then handleGetCurrentLocation_begin ;; ret (inl tt)
  else
    r <- handleSetDestination_locate overrideQuery random1 random2 ;;
    ret (inr r).

(** The turn in which the awaited [handleGetCurrentLocation] ends:
    its last part runs and [handleSetDestination] goes on in the same
    task, the updates being batched until the next render. *)
Definition handleSetDestination_located
    (answer : option (Location * string))
    (overrideQuery : option string) (random1 random2 : number)
    : M (option PendingDestination) :=
  handleGetCurrentLocation_resume answer ;;
  handleSetDestination_locate overrideQuery random1 random2.

End Destination.

(** ** The forms and the driver dashboard *)

Definition with_driver_photo x (p : DriverProfile) : DriverProfile :=
  {| driver_name := driver_name p;
     driver_documentNumber := driver_documentNumber p;
     driver_phone := driver_phone p;
     driver_plate := driver_plate p;
     driver_rating := driver_rating p;
     completedTrips := completedTrips p;
     driver_photo := x;
     vehiclePhotos := vehiclePhotos p |}.

Definition with_passenger_photo x (p : PassengerProfile) : PassengerProfile :=
  {| passenger_name := passenger_name p;
     passenger_documentNumber := passenger_documentNumber p;
     passenger_phone := passenger_phone p;
     passenger_rating := passenger_rating p;
     passenger_photo := x |}.

Definition add_vehicle_photo x (p : DriverProfile) : DriverProfile :=
  {| driver_name := driver_name p;
     driver_documentNumber := driver_documentNumber p;
     driver_phone := driver_phone p;
     driver_plate := driver_plate p;
     driver_rating := driver_rating p;
     completedTrips := completedTrips p;
     driver_photo := driver_photo p;
     vehiclePhotos := vehiclePhotos p ++ [x] |}.

Inductive PhotoType := photo_driver | photo_passenger | photo_vehicle.

(** [handlePhotoUpload]: [hasFile] says whether [e.target.files?.[0]]
    is there. *)
Definition handlePhotoUpload (hasFile : bool) : M unit :=
  if hasFile then speak "Foto recibida." else ret tt.

(** [reader.onloadend] of [handlePhotoUpload]. *)
Definition photo_onloadend (type : PhotoType) (result : string) : M unit :=
  match type with
  | photo_driver => setDriverProfile (with_driver_photo (Some result))
  | photo_passenger => setPassengerProfile (with_passenger_photo (Some result))
  | photo_vehicle => setDriverProfile (add_vehicle_photo result)
  end.

(** The [onChange] handlers of the registration form: they write the
    profile of the view being rendered, starting from the profile of the
    last render. *)
Definition name_change (typed : string) : M unit :=
  a <- gets app ;;
  if View_eqb (currentView a) driver_register
  then setDriverProfile (fun _ => with_driver_name (Some typed) (driverProfile a))
  else setPassengerProfile
         (fun _ => with_passenger_name (Some typed) (passengerProfile a)).

Definition phone_change (typed : string) : M unit :=
  a <- gets app ;;
  if View_eqb (currentView a) driver_register
  then setDriverProfile (fun _ => with_driver_phone typed (driverProfile a))
  else setPassengerProfile
         (fun _ => with_passenger_phone typed (passengerProfile a)).

(** [upper] is [e.target.value.toUpperCase()]. *)
Definition plate_change (upper : string) : M unit :=
  a <- gets app ;;
  setDriverProfile (fun _ => with_driver_plate upper (driverProfile a)).

(** [setDriverStatus(s => s === 'online' ? 'offline' : 'online')] *)
Definition toggle_driver_status : M unit :=
  modify (with_app (fun a =>
    set_driverStatus
      (match driverStatus a with online => offline | offline => online end)
      a)).

(** [{ ...t, status: 'accepted', driverLat: userLocation?.lat,
       driverLng: userLocation?.lng }] *)
Definition accepted_by_driver (t : Trip) (here : option Location) : Trip :=
  {| trip_id := trip_id t;
     trip_pickupLat := trip_pickupLat t;
     trip_pickupLng := trip_pickupLng t;
     trip_pickupAddress := trip_pickupAddress t;
     trip_destinationLat := trip_destinationLat t;
     trip_destinationLng := trip_destinationLng t;
     trip_destinationAddress := trip_destinationAddress t;
     trip_status := status_accepted;
     trip_distance := trip_distance t;
     trip_price := trip_price t;
     trip_passengerName := trip_passengerName t;
     trip_passengerPhone := trip_passengerPhone t;
     trip_passengerPhoto := trip_passengerPhoto t;
     trip_driverName := trip_driverName t;
     trip_driverPhone := trip_driverPhone t;
     trip_driverPlate := trip_driverPlate t;
     driverLat := option_map lat here;
     driverLng := option_map lng here;
     trip_driverPhoto := trip_driverPhoto t |}.

(** The "Aceptar Viaje" button of the [i]-th card of the driver
    dashboard, rendered on that view while the driver is online. *)
Definition accept_trip_click (i : nat) : M unit :=
  a <- gets app ;;
  if View_eqb (currentView a) driver_dashboard then
    match driverStatus a, nth_error (trips a) i with
    | online, Some t =>
        setActiveTrip (Some (accepted_by_driver t (userLocation a))) ;;
        setTrips [] ;;
        setCurrentView trip_active ;;
        speak "Viaje aceptado. Dirígete al punto de recogida."
    | _, _ => ret tt
    end
  else ret tt.

(** ** The voice indicator *)

(** What [renderVoiceIndicator] puts on the screen. *)
Inductive Bubble :=
| NoBubble
| BouncingDots
| BubbleText (text : string).

Inductive OrbColour := emerald | violet | blue.

Inductive VoiceIndicator :=
| MicButton
| Orb (bubble : Bubble) (pulse : bool) (colour : OrbColour) (spinner : bool).

Definition renderVoiceIndicator (v : VoiceState) : VoiceIndicator :=
  if negb (voiceActive v) then MicButton
  else
    Orb
      (if negb (String.eqb (transcript v) "") || aiSpeaking v then
         if aiSpeaking v then BouncingDots
         else BubbleText (if negb (String.eqb (transcript v) "")
                          then transcript v else "Escuchando...")
       else NoBubble)
      (isListening v)
      (if isListening v then emerald
       else if isProcessing v then violet else blue)
      (isProcessing v).

(** ** Every handler of the component *)

(** The events of [Event] and those of the handlers modelled above.
    The numbers and strings an event carries are what the browser hands
    to the handler: the answers of the location service, the results of
    [Math.random()], the typed text.  [DestinationCalled] is the body of
    [handleSetDestination] up to its first [await], for the button of
    the passenger dashboard as for the call the voice path records. *)
Inductive UiEvent :=
| Core (e : Event)
| LocationButton
| LocationAnswer (answer : option (Location * string))
| DestinationCalled (overrideQuery : option string) (random1 random2 : number)
| DestinationLocated (answer : option (Location * string))
    (overrideQuery : option string) (random1 random2 : number)
| DestinationAddress (baseLat baseLng demoLat demoLng : number)
    (address : string)
| PhotoChosen (hasFile : bool)
| PhotoLoaded (type : PhotoType) (result : string)
| NameTyped (typed : string)
| PhoneTyped (typed : string)
| PlateTyped (upper : string)
| DriverStatusButton
| AcceptTripButton (i : nat).

Section UiLoop.

Variable calculateDistance : number -> number -> number -> number -> number.
Variable calculatePrice : number -> number.

Definition ui_handler (e : UiEvent) : M unit :=
  match e with
  | Core e => handler e
  | LocationButton => handleGetCurrentLocation_begin
  | LocationAnswer answer => handleGetCurrentLocation_resume answer
  | DestinationCalled q r1 r2 =>
      handleSetDestination_start calculateDistance calculatePrice q r1 r2 ;;
      ret tt
  | DestinationLocated answer q r1 r2 =>
      handleSetDestination_located calculateDistance calculatePrice
        answer q r1 r2 ;;
      ret tt
  | DestinationAddress bLat bLng dLat dLng address =>
      handleSetDestination_finish calculateDistance calculatePrice
        {| baseLat := bLat; baseLng := bLng;
           demoLat := dLat; demoLng := dLng |} address
  | PhotoChosen hasFile => handlePhotoUpload hasFile
  | PhotoLoaded type result => photo_onloadend type result
  | NameTyped typed => name_change typed
  | PhoneTyped typed => phone_change typed
  | PlateTyped upper => plate_change upper
  | DriverStatusButton => toggle_driver_status
  | AcceptTripButton i => accept_trip_click i
  end.

Definition ui_step (w : World) (e : UiEvent) : World :=
  commit (exec (ui_handler e) w).

Definition ui_run (w : World) (es : list UiEvent) : World :=
  fold_left ui_step es w.

End UiLoop.

(** ** MapComponent.tsx *)

Module MapComponent.

(** A prop declared [number | null] and optional. *)
Inductive Coordinate :=
| Undefined
| Null
| Num (x : number).

Definition truthy_coordinate (c : Coordinate) : bool :=
  match c with
  | Num x => truthy x
  | _ => false
  end.

(** [a !== b] *)
Definition strict_neq (a b : Coordinate) : bool :=
  match a, b with
  | Undefined, Undefined => false
  | Null, Null => false
  | Num x, Num y => if Req_dec_T x y then false else true
  | _, _ => true
  end.

(** The number a truthy coordinate holds. *)
Definition number_of (c : Coordinate) : number :=
  match c with
  | Num x => x
  | _ => 0
  end.

Inductive IconType := icon_default | icon_moto | icon_person.

Inductive Icon := defaultIcon | motoIcon | destinationIcon.

Record MapProps := {
  lat : number;
  lng : number;
  destinationLat : Coordinate;
  destinationLng : Coordinate;
  popupText : option string;
  iconType : IconType
}.

Record Marker := {
  position : number * number;
  icon : Icon;
  popup : option string
}.

Inductive RouteLayer :=
| GeoJson (geometry : string)
| Polyline (origin target : number * number).

(** [prevCoordsRef.current] *)
Record Coords := {
  prev_lat : number;
  prev_lng : number;
  dLat : Coordinate;
  dLng : Coordinate
}.

(** What the effect asks of Leaflet and of the network. *)
Inductive MapCall :=
| CreateMap (center : number * number)
| PanTo (target : number * number)
| RemoveDestinationMarker
| RemoveRoute
| FitBounds
| FetchRoute (origin target : number * number)
| InvalidateSizeLater.

(** The refs of the component; [mapInstanceRef] says whether the map
    has been created. *)
Record Refs := {
  mapInstanceRef : bool;
  markerRef : option Marker;
  destinationMarkerRef : option (number * number);
  routeLayerRef : option RouteLayer;
  prevCoordsRef : Coords;
  mapCalls : list MapCall
}.


Definition currentIcon (p : MapProps) : Icon :=
  match iconType p with
  | icon_moto => motoIcon
  | _ => defaultIcon
  end.

(** [Math.sqrt(Math.pow(a.lat - lat, 2) + Math.pow(a.lng - lng, 2))] *)
Definition dist (mapCenter : number * number) (p : MapProps) : number :=
  sqrt ((fst mapCenter - lat p) ^ 2 + (snd mapCenter - lng p) ^ 2).

(** The first block of the effect: the map is created with its marker,
    or the marker is moved and the map panned when its centre
    ([mapCenter], as [getCenter()] returns it) is far. *)
Definition update_marker (mapCenter : number * number) (p : MapProps)
    (r : Refs) : Refs :=
  if negb (mapInstanceRef r) then
    {| mapInstanceRef := true;
       markerRef := Some {| position := (lat p, lng p);
                            icon := currentIcon p;
                            popup := if truthy_str (popupText p)
                                     then popupText p else None |};
       destinationMarkerRef := destinationMarkerRef r;
       routeLayerRef := routeLayerRef r;
       prevCoordsRef := prevCoordsRef r;
       mapCalls := mapCalls r ++ [CreateMap (lat p, lng p)] |}
  else
    match markerRef r with
    | Some m =>
        {| mapInstanceRef := true;
           markerRef := Some {| position := (lat p, lng p);
                                icon := currentIcon p;
                                popup := popup m |};
           destinationMarkerRef := destinationMarkerRef r;
           routeLayerRef := routeLayerRef r;
           prevCoordsRef := prevCoordsRef r;
           mapCalls :=
             if Rlt_dec 0.005 (dist mapCenter p)
             then mapCalls r ++ [PanTo (lat p, lng p)]
             else mapCalls r |}
    | None => r
    end.

(** The second block: the destination marker. *)
Definition update_destination (p : MapProps) (r : Refs) : Refs :=
  if truthy_coordinate (destinationLat p)
     && truthy_coordinate (destinationLng p)
  then
    {| mapInstanceRef := mapInstanceRef r; markerRef := markerRef r;
       destinationMarkerRef :=
         Some (number_of (destinationLat p), number_of (destinationLng p));
       routeLayerRef := routeLayerRef r;
       prevCoordsRef := prevCoordsRef r;
       mapCalls := mapCalls r |}
  else
    match destinationMarkerRef r with
    | Some _ =>
        {| mapInstanceRef := mapInstanceRef r; markerRef := markerRef r;
           destinationMarkerRef := None;
           routeLayerRef := routeLayerRef r;
           prevCoordsRef := prevCoordsRef r;
           mapCalls := mapCalls r ++ [RemoveDestinationMarker] |}
    | None => r
    end.

Definition hasDestChanged (p : MapProps) (r : Refs) : bool :=
  strict_neq (dLat (prevCoordsRef r)) (destinationLat p)
  || strict_neq (dLng (prevCoordsRef r)) (destinationLng p).

(** The comparison is the one of the reals.  On doubles the
    subtraction and the constant 0.002 are rounded, which can turn the
    test for a move of 0.002 to within a few units of the last place;
    the properties below stay away from the threshold. *)
Definition hasOriginChangedSignificantly (p : MapProps) (r : Refs) : bool :=
  (if Rlt_dec 0.002 (Rabs (prev_lat (prevCoordsRef r) - lat p))
   then true else false)
  || (if Rlt_dec 0.002 (Rabs (prev_lng (prevCoordsRef r) - lng p))
      then true else false).

(** The condition under which [fetchRoute()] is called. *)
Definition route_wanted (p : MapProps) (r : Refs) : bool :=
  (truthy_coordinate (destinationLat p)
   && truthy_coordinate (destinationLng p))
  && (hasDestChanged p r || hasOriginChangedSignificantly p r
      || match routeLayerRef r with Some _ => false | None => true end).

(** The third block and the end of the effect: the route request, the
    stored coordinates, the delayed [invalidateSize]. *)
Definition update_route (p : MapProps) (r : Refs) : Refs :=
  {| mapInstanceRef := mapInstanceRef r; markerRef := markerRef r;
     destinationMarkerRef := destinationMarkerRef r;
     routeLayerRef := routeLayerRef r;
     prevCoordsRef :=
       {| prev_lat := lat p; prev_lng := lng p;
          dLat := destinationLat p; dLng := destinationLng p |};
     mapCalls :=
       (if route_wanted p r
        then mapCalls r ++
             [FetchRoute (lng p, lat p)
                (number_of (destinationLng p), number_of (destinationLat p))]
        else mapCalls r) ++ [InvalidateSizeLater] |}.

(** The effect of the component.  [ready] says that the container is
    mounted and Leaflet is loaded. *)
Definition effect (ready : bool) (mapCenter : number * number)
    (p : MapProps) (r : Refs) : Refs :=
  if negb ready then r
  else update_route p (update_destination p (update_marker mapCenter p r)).





(** The renders of a mounted map, one effect run per new props, each
    with the centre the map has at that time. *)
Definition renders (r : Refs) (ps : list ((number * number) * MapProps))
    : Refs :=
  fold_left (fun r cp => effect true (fst cp) (snd cp) r) ps r.

End MapComponent.

(** The props the trip view hands to the map:
    [lat={activeTrip.driverLat || activeTrip.pickupLat}] and so on. *)
Definition trip_map_props (t : Trip) : MapComponent.MapProps :=
  {| MapComponent.lat :=
       coordinate_or (driverLat t) (trip_pickupLat t);
     MapComponent.lng :=
       coordinate_or (driverLng t) (trip_pickupLng t);
     MapComponent.destinationLat := MapComponent.Num (trip_destinationLat t);
     MapComponent.destinationLng := MapComponent.Num (trip_destinationLng t);
     MapComponent.popupText := None;
     MapComponent.iconType := MapComponent.icon_moto |}.

(** * Vocabulary of the properties *)

(** The specification's wording: the characters outside a class are
    stripped, the others are kept in order. *)
Fixpoint strip (keep : ascii -> bool) (s : string) : string :=
  match s with
  | EmptyString => EmptyString
  | String c rest =>
      if keep c then String c (strip keep rest) else strip keep rest
  end.

Definition strip_non_digits : string -> string := strip is_digit.

Definition strip_non_alphanumerics : string -> string := strip is_alnum.

Fixpoint all_chars (p : ascii -> bool) (s : string) : bool :=
  match s with
  | EmptyString => true
  | String c rest => p c && all_chars p rest
  end.

(** A reply that carries a parsed intent. *)
Definition intent (c : ascii) (rest : string) (a : ActionKind)
    (sp v : option string) : AiReply :=
  CallResolved (Some (String c rest))
    (Parsed {| speech := sp; action := Some (action_label a); value := v |}).

(** The world after the intent has been dispatched. *)
Definition dispatch (c : ascii) (rest : string) (a : ActionKind)
    (sp v : option string) (currentState : Snapshot) (o : StartOutcome)
    (w : World) : World :=
  exec (getGeminiResponse_resume (intent c rest a sp v) currentState o) w.

(** The context guard of each action, as the [case] bodies test it. *)
Definition guard (a : ActionKind) (currentState : Snapshot) : bool :=
  let view := snap_currentView currentState in
  match a with
  | SET_PASSENGER_NAME =>
      View_eqb view passenger_register || View_eqb view home
  | SET_DRIVER_NAME =>
      View_eqb view driver_register || View_eqb view home
  | CONFIRM_TRIP =>
      View_eqb view passenger_dashboard
      && truthy_opt (destinationLat (snap_tripRequest currentState))
  | _ => true
  end.


(** The three ways the interpretation fails before any action is
    executed: the call rejects (network failure, timeout), the response
    has no text, the text does not parse. *)
Definition interpretation_fails (reply : AiReply) : bool :=
  match reply with
  | CallRejected _ => true
  | CallResolved text parsed =>
      negb (truthy_str text)
      || match parsed with
         | SyntaxError => true
         | Parsed _ => false
         end
  end.

(** The failure the browser reports when microphone access is denied. *)
Definition not_allowed : JsError :=
  {| error := Some "not-allowed"; message := Some "Permission denied" |}.

Definition heartbeatLog : Call := ConsoleLog "Heartbeat: Restarting voice...".

(** The two flags are not both up. *)
Definition exclusive (w : World) : Prop :=
  isListening (voice w) && aiSpeaking (voice w) = false.

(** The refs hold what the last render copied into them. *)
Definition rendered (w : World) : Prop :=
  stateRef w = snapshot_of w /\ processingRef w = isProcessing (voice w).

(** The Euclidean length of the vector [(x, y)]. *)
Definition norm (x y : R) : R := sqrt (x * x + y * y).

(** The [distance] a tick computes: from the driver to the pickup point. *)
Definition distance_to_target (t : Trip) : R :=
  norm (trip_pickupLng t - to_number (driverLng t))
       (trip_pickupLat t - to_number (driverLat t)).

(** A call to the capture adapter. *)
Definition capture_call (c : Call) : bool :=
  match c with
  | RecognitionStart | RecognitionStop => true
  | _ => false
  end.

Definition no_capture_calls (l : list Call) : bool :=
  forallb (fun c => negb (capture_call c)) l.


(** The trip with its driver [c] south and [c] west of the pickup
    point. *)
Definition on_diagonal (t : Trip) (c : number) : Trip :=
  with_driver_position (trip_pickupLat t - c) (trip_pickupLng t - c) t.

(** The route requests among the calls of the map. *)
Definition is_fetch (c : MapComponent.MapCall) : bool :=
  match c with
  | MapComponent.FetchRoute _ _ => true
  | _ => false
  end.

Definition fetches (l : list MapComponent.MapCall) : nat :=
  List.length (filter is_fetch l).

(** What the effect stores in [prevCoordsRef] for the props [p]. *)
Definition coords_of (p : MapComponent.MapProps) : MapComponent.Coords :=
  {| MapComponent.prev_lat := MapComponent.lat p;
     MapComponent.prev_lng := MapComponent.lng p;
     MapComponent.dLat := MapComponent.destinationLat p;
     MapComponent.dLng := MapComponent.destinationLng p |}.

(** A sequence of renders that keeps the destination and moves the
    origin by at most 0.001 per coordinate, half the threshold of the
    map, from one render to the next, starting from the stored
    coordinates [c]. *)
Fixpoint drifts (c : MapComponent.Coords)
    (ps : list ((number * number) * MapComponent.MapProps)) : Prop :=
  match ps with
  | [] => True
  | (_, p) :: rest =>
      MapComponent.destinationLat p = MapComponent.dLat c /\
      MapComponent.destinationLng p = MapComponent.dLng c /\
      Rabs (MapComponent.prev_lat c - MapComponent.lat p) <= 0.001 /\
      Rabs (MapComponent.prev_lng c - MapComponent.lng p) <= 0.001 /\
      drifts (coords_of p) rest
  end.

(** The trips the next [n] ticks of the simulation produce. *)
Fixpoint ticks (n : nat) (t : Trip) : list Trip :=
  match n with
  | O => []
  | S n' =>
      match simulate (Some t) with
      | Some t' => t' :: ticks n' t'
      | None => []
      end
  end.

(** Neither coordinate of the driver is 0. *)
Definition driver_off_the_axes (t : Trip) : Prop :=
  driverLat t <> Some 0 /\ driverLng t <> Some 0.

(** * Scenarios *)

(** The driver registration view, as a rendered world. *)
Definition driverRegisterWorld : World :=
  step (initialWorld true 0) DriverButton.

(** A passenger's request while the search for a driver runs. *)
Definition bogotaRequest : TripRequest :=
  {| pickupLat := Some 4.60; pickupLng := Some (-74.08);
     pickupAddress := "Calle 10";
     destinationLat := Some 4.605; destinationLng := Some (-74.075);
     destinationAddress := "Plaza Principal";
     distance := 0.8; price := 3000 |}.

Definition searchingTrip : Trip :=
  {| trip_id := 1; trip_pickupLat := 4.60; trip_pickupLng := -74.08;
     trip_pickupAddress := "Calle 10";
     trip_destinationLat := 4.605; trip_destinationLng := -74.075;
     trip_destinationAddress := "Plaza Principal";
     trip_status := status_searching;
     trip_distance := 0.8; trip_price := 3000;
     trip_passengerName := Some "Carlos Ruiz";
     trip_passengerPhone := Some "3105559999";
     trip_passengerPhoto := None;
     trip_driverName := None; trip_driverPhone := None;
     trip_driverPlate := None; driverLat := None; driverLng := None;
     trip_driverPhoto := None |}.

(** The searching view, as [requestTrip] leaves it and as rendered. *)
Definition searchingWorld : World :=
  commit
    (with_app (fun a => set_currentView searching
                          (set_activeTrip (Some searchingTrip)
                             (set_userType (Some passenger)
                                (set_tripRequest bogotaRequest a))))
       (set_timeouts [TripAcceptedTimeout] (initialWorld true 1))).


(** The voice feature switched on and the greeting over: the session
    waits for the 200 ms timeout that reopens capture. *)
Definition waitingWorld : World :=
  run (initialWorld true 0)
    [VoiceButton; TimeoutFires (SpeakTimeout greeting) Started; UtteranceEnd].

(** The voice feature switched on, the greeting spoken, capture open. *)
Definition listeningWorld : World :=
  run (initialWorld true 0)
    [VoiceButton; TimeoutFires (SpeakTimeout greeting) Started; UtteranceEnd;
     TimeoutFires ResumeTimeout Started; RecognitionStarted].

(** A transcript has arrived and the intent service has been called. *)
Definition processingWorld : World :=
  run listeningWorld [RecognitionResult "Llevame al parque"; RecognitionEnded].

(** A passenger on the registration view with the voice feature on: the
    greeting is over and the 200 ms timeout has called
    [recognition.start()]; the browser has not yet reported the start. *)
Definition captureRequestedWorld : World :=
  run (initialWorld true 0)
    [PassengerButton; VoiceButton;
     TimeoutFires (SpeakTimeout greeting) Started; UtteranceEnd;
     TimeoutFires ResumeTimeout Started].

(** A trip whose pickup point lies at latitude 0.005, accepted: the
    4000 ms timeout of [requestTrip] puts the driver 0.005 south and
    west of the pickup point, that is on latitude 0. *)
Definition equatorTrip : Trip :=
  accept_trip
    {| trip_id := 1; trip_pickupLat := 0.005; trip_pickupLng := -74.08;
       trip_pickupAddress := "Vereda La Linea";
       trip_destinationLat := 0.012; trip_destinationLng := -74.07;
       trip_destinationAddress := "Plaza Principal";
       trip_status := status_searching;
       trip_distance := 1.4; trip_price := 4000;
       trip_passengerName := Some "Carlos Ruiz";
       trip_passengerPhone := Some "3105559999";
       trip_passengerPhoto := None;
       trip_driverName := None; trip_driverPhone := None;
       trip_driverPlate := None; driverLat := None; driverLng := None;
       trip_driverPhoto := None |}.

(** The props of a map whose destination is the main square. *)
Definition plazaProps (y x : number) : MapComponent.MapProps :=
  {| MapComponent.lat := y; MapComponent.lng := x;
     MapComponent.destinationLat := MapComponent.Num 4.605;
     MapComponent.destinationLng := MapComponent.Num (-74.075);
     MapComponent.popupText := None;
     MapComponent.iconType := MapComponent.icon_moto |}.

(** A map on which the route of the props [p] has been drawn. *)
Definition drawnMap (p : MapComponent.MapProps) : MapComponent.Refs :=
  {| MapComponent.mapInstanceRef := true;
     MapComponent.markerRef :=
       Some {| MapComponent.position :=
                 (MapComponent.lat p, MapComponent.lng p);
               MapComponent.icon := MapComponent.currentIcon p;
               MapComponent.popup := None |};
     MapComponent.destinationMarkerRef := Some (4.605, -74.075);
     MapComponent.routeLayerRef := Some (MapComponent.GeoJson "LineString");
     MapComponent.prevCoordsRef := coords_of p;
     MapComponent.mapCalls :=
       [MapComponent.CreateMap (MapComponent.lat p, MapComponent.lng p);
        MapComponent.FetchRoute (MapComponent.lng p, MapComponent.lat p)
          (-74.075, 4.605);
        MapComponent.InvalidateSizeLater;
        MapComponent.FitBounds] |}.

(** A transcript of white space only: a space, a no-break space
    (U+00A0), a byte order mark (U+FEFF), a line separator (U+2028), an
    ideographic space (U+3000) and a tab. *)
Definition blankTranscript : string :=
  String "032" (String "194" (String "160"
    (String "239" (String "187" (String "191"
      (String "226" (String "128" (String "168"
        (String "227" (String "128" (String "128"
          (String "009" EmptyString)))))))))))).

(** * Properties *)

(** ** Sanitising the dictated value *)

Lemma replace_all_strip (keep : ascii -> bool) (s : string) :
  replace_all (fun c => negb (keep c)) s = strip keep s.
Proof.
  induction s as [|c rest IH]; cbn; [reflexivity|].
  rewrite IH. destruct (keep c); reflexivity.
Qed.

Lemma strip_all_chars (keep : ascii -> bool) (s : string) :
  all_chars keep (strip keep s) = true.
Proof.
  induction s as [|c rest IH]; cbn; [reflexivity|].
  destruct (keep c) eqn:E; cbn; [rewrite E|]; exact IH.
Qed.

Lemma strip_fixed (keep : ascii -> bool) (s : string) :
  all_chars keep s = true -> strip keep s = s.
Proof.
  induction s as [|c rest IH]; cbn; [reflexivity|].
  destruct (keep c); cbn; [|discriminate].
  intros H. now rewrite IH.
Qed.

(** No lower-case ASCII letter survives [toUpperCase]. *)
Lemma toUpperCase_char_not_lower (c : ascii) :
  is_lower (toUpperCase_char c) = false.
Proof.
  destruct c as [[] [] [] [] [] [] [] []]; vm_compute; reflexivity.
Qed.

Lemma toUpperCase_no_lower (s : string) :
  all_chars (fun c => negb (is_lower c)) (toUpperCase s) = true.
Proof.
  induction s as [|c rest IH]; cbn; [reflexivity|].
  now rewrite toUpperCase_char_not_lower, IH.
Qed.

Lemma toUpperCase_char_alnum (c : ascii) :
  is_alnum c = true -> is_alnum (toUpperCase_char c) = true.
Proof.
  destruct c as [[] [] [] [] [] [] [] []]; vm_compute; intro H;
    first [reflexivity | discriminate].
Qed.

Lemma toUpperCase_alnum (s : string) :
  all_chars is_alnum s = true -> all_chars is_alnum (toUpperCase s) = true.
Proof.
  induction s as [|c rest IH]; cbn; [reflexivity|].
  intros H. apply andb_true_iff in H as [Hc Hr].
  now rewrite toUpperCase_char_alnum, IH.
Qed.

(** ** Running callbacks *)

Ltac js_unfold :=
  unfold exec, speak, stopListening, synth_cancel, synth_speak,
    recognition_stop, recognition_start, handleSetDestination,
    setUserType, setCurrentView, setDriverStatus, setActiveTrip,
    setTripRequest, setIsListening, setIsProcessing, setTranscript,
    setAiSpeaking, setVoiceActive, setDriverProfile, setPassengerProfile,
    setTimeout, call, try_catch, bind, gets, modify, ret, throw,
    synth_busy in *.

Ltac js_cases w :=
  let sq := fresh "sq" in
  let rr := fresh "rr" in
  destruct w as [? ? ? ? ? ? rr sq ? ? ? ?]; cbn in *;
  destruct sq, rr; cbn in *.

(** What [speak] does to the world. *)
Lemma speak_spec (text : string) (w : World) :
  let w' := exec (speak text) w in
  fst (speak text w) = Normal tt /\
  app w' = app w /\
  voice w' =
    set_isProcessing false (set_aiSpeaking true
      (set_isListening false (voice w))) /\
  timeouts w' = (timeouts w ++ [SpeakTimeout text])%list /\
  synthQueue w' = [] /\
  stateRef w' = stateRef w /\
  processingRef w' = processingRef w /\
  heartbeatRef w' = heartbeatRef w /\
  recognitionRef w' = recognitionRef w /\
  pendingAi w' = pendingAi w.
Proof.
  js_unfold. cbn. destruct (synthQueue w) eqn:Q; cbn;
    destruct (recognitionRef w) eqn:K; cbn; rewrite ?Q, ?K;
    repeat split; reflexivity.
Qed.

(** C6: for every raw value, SET_PASSENGER_PHONE and SET_DRIVER_PHONE
    store the value with every non-digit stripped, and SET_DRIVER_PLATE
    stores it with every non-alphanumeric stripped and the letters in
    upper case; "310 555 9999" becomes "3105559999" and "x y z 555"
    becomes "XYZ555". *)
Theorem C6_phone_and_plate_are_sanitised :
  (forall c rest sp (v : string) cs o w,
      passenger_phone (passengerProfile (app
        (dispatch c rest SET_PASSENGER_PHONE sp (Some v) cs o w)))
      = strip_non_digits v
      /\
      driver_phone (driverProfile (app
        (dispatch c rest SET_DRIVER_PHONE sp (Some v) cs o w)))
      = strip_non_digits v
      /\
      let plate := driver_plate (driverProfile (app
        (dispatch c rest SET_DRIVER_PLATE sp (Some v) cs o w))) in
      plate = toUpperCase (strip_non_alphanumerics v) /\
      all_chars is_alnum plate = true /\
      all_chars (fun k => negb (is_lower k)) plate = true)
  /\
  (forall c rest sp cs o w,
      passenger_phone (passengerProfile (app
        (dispatch c rest SET_PASSENGER_PHONE sp (Some "310 555 9999") cs o w)))
      = "3105559999"
      /\
      driver_plate (driverProfile (app
        (dispatch c rest SET_DRIVER_PLATE sp (Some "x y z 555") cs o w)))
      = "XYZ555").
Proof.
  assert (Hphone : forall v, replace_all non_digit v = strip_non_digits v)
    by (intro v; apply replace_all_strip).
  assert (Hplate : forall v, replace_all non_alnum v = strip_non_alphanumerics v)
    by (intro v; apply replace_all_strip).
  assert (Hp : forall c rest sp v cs o w,
    passenger_phone (passengerProfile (app
      (dispatch c rest SET_PASSENGER_PHONE sp (Some v) cs o w)))
    = replace_all non_digit v).
  { intros. unfold dispatch, intent, getGeminiResponse_resume. cbn.
    js_unfold. cbn. js_cases w; reflexivity. }
  assert (Hd : forall c rest sp v cs o w,
    driver_phone (driverProfile (app
      (dispatch c rest SET_DRIVER_PHONE sp (Some v) cs o w)))
    = replace_all non_digit v).
  { intros. unfold dispatch, intent, getGeminiResponse_resume. cbn.
    js_unfold. cbn. js_cases w; reflexivity. }
  assert (Hl : forall c rest sp v cs o w,
    driver_plate (driverProfile (app
      (dispatch c rest SET_DRIVER_PLATE sp (Some v) cs o w)))
    = toUpperCase (replace_all non_alnum v)).
  { intros. unfold dispatch, intent, getGeminiResponse_resume. cbn.
    js_unfold. cbn. js_cases w; reflexivity. }
  split.
  - intros. rewrite Hp, Hd, Hl, Hphone, Hplate. repeat split.
    + apply toUpperCase_alnum, strip_all_chars.
    + apply toUpperCase_no_lower.
  - intros. rewrite Hp, Hl. split; reflexivity.
Qed.

Lemma View_eqb_eq (a b : View) : View_eqb a b = true <-> a = b.
Proof.
  split.
  - destruct a, b; vm_compute; intro H; first [reflexivity | discriminate].
  - intros ->. destruct b; reflexivity.
Qed.

Lemma View_eqb_neq (a b : View) : View_eqb a b = false <-> a <> b.
Proof.
  split.
  - intros H E. apply View_eqb_eq in E. congruence.
  - intros H. destruct (View_eqb a b) eqn:E; [|reflexivity].
    apply View_eqb_eq in E. contradiction.
Qed.

(** A pending timeout can fire. *)
Lemma Timeout_eqb_refl (t : Timeout) : Timeout_eqb t t = true.
Proof. destruct t; cbn; [apply String.eqb_refl | reflexivity | reflexivity]. Qed.

Lemma take_timeout_In (t : Timeout) (l : list Timeout) :
  In t l -> exists rest, take_timeout t l = Some rest.
Proof.
  induction l as [|x l IH]; intros Hin; [destruct Hin|]. cbn.
  destruct (Timeout_eqb t x) eqn:Q; [eauto|].
  destruct Hin as [->|Hin].
  - rewrite Timeout_eqb_refl in Q. discriminate.
  - destruct (IH Hin) as [rest ->]. eauto.
Qed.

(** When the 50 ms timeout of [speak] fires, the text reaches the
    synthesiser. *)
Lemma speak_timeout_fires (text : string) (o : StartOutcome) (w : World) :
  In (SpeakTimeout text) (timeouts w) ->
  let w' := exec (handler (TimeoutFires (SpeakTimeout text) o)) w in
  calls w' = (calls w ++ [SynthSpeak text])%list /\
  synthQueue w' = (synthQueue w ++ [text])%list /\
  voice w' = voice w /\ app w' = app w.
Proof.
  intros Hin. cbn. js_unfold. cbn.
  destruct (take_timeout_In _ _ Hin) as [rest ->]. cbn. repeat split; reflexivity.
Qed.

(** ** The action dispatch table *)

(** The guards that can fail, spelled out. *)
Lemma guard_false_cases (a : ActionKind) (cs : Snapshot) :
  guard a cs = false <->
  (a = CONFIRM_TRIP /\
   (snap_currentView cs <> passenger_dashboard \/
    truthy_opt (destinationLat (snap_tripRequest cs)) = false)) \/
  (a = SET_PASSENGER_NAME /\
   snap_currentView cs <> passenger_register /\ snap_currentView cs <> home) \/
  (a = SET_DRIVER_NAME /\
   snap_currentView cs <> driver_register /\ snap_currentView cs <> home).
Proof.
  unfold guard. split.
  - destruct a; try discriminate; intro H.
    + right; left. apply orb_false_iff in H as [H1 H2].
      apply View_eqb_neq in H1, H2. auto.
    + right; right. apply orb_false_iff in H as [H1 H2].
      apply View_eqb_neq in H1, H2. auto.
    + left. apply andb_false_iff in H as [H|H];
        [apply View_eqb_neq in H|]; auto.
  - intros [[-> H]|[[-> [H1 H2]]|[-> [H1 H2]]]].
    + apply andb_false_iff. destruct H as [H|H];
        [left; now apply View_eqb_neq | now right].
    + apply orb_false_iff. split; now apply View_eqb_neq.
    + apply orb_false_iff. split; now apply View_eqb_neq.
Qed.

(** An unresolved destination fails the guard of CONFIRM_TRIP. *)
Lemma guard_confirm_no_destination (cs : Snapshot) :
  destinationLat (snap_tripRequest cs) = None -> guard CONFIRM_TRIP cs = false.
Proof.
  intro H. apply guard_false_cases. left. split; [reflexivity|].
  right. now rewrite H.
Qed.

Lemma switch_action_label (a : ActionKind) :
  switch_action (action_label a) = Some a.
Proof. destruct a; reflexivity. Qed.

Lemma truthy_action_label (a : ActionKind) :
  truthy_str (Some (action_label a)) = true.
Proof. destruct a; reflexivity. Qed.



(** C4 (as the code has it): a dispatched NAVIGATE_DESTINATION switches
    the view to the passenger dashboard when the snapshot view is the
    passenger registration, leaves the view alone from every other view
    (the driver registration included), and in every case starts the
    destination resolution with the value of the intent as its hint. *)
Theorem C4_navigate_destination :
  forall c rest sp v cs o w,
    let w' := dispatch c rest NAVIGATE_DESTINATION sp v cs o w in
    (snap_currentView cs = passenger_register ->
     currentView (app w') = passenger_dashboard) /\
    (snap_currentView cs <> passenger_register ->
     currentView (app w') = currentView (app w)) /\
    exists adapterCalls,
      calls w' = (calls w ++ ConsoleLog "AI Action:"
                    :: HandleSetDestination v :: adapterCalls)%list.
Proof.
  intros c rest sp v cs o w w'. subst w'.
  unfold dispatch, intent, getGeminiResponse_resume.
  cbn -[View_eqb speak]. repeat split.
  - intros ->. cbn. js_unfold. cbn. js_cases w; reflexivity.
  - intros H. apply View_eqb_neq in H. rewrite H.
    js_unfold. cbn. js_cases w; reflexivity.
  - destruct (View_eqb (snap_currentView cs) passenger_register);
      js_unfold; cbn; js_cases w; rewrite <- ?app_assoc; cbn;
      eexists; reflexivity.
Qed.

Lemma C4_navigate_destination_witness :
  let w := driverRegisterWorld in
  let w' := dispatch "{" "}" NAVIGATE_DESTINATION None (Some "Plaza Principal")
              (stateRef w) Started w in
  snap_currentView (stateRef w) <> passenger_register /\
  currentView (app w') = currentView (app w).
Proof.
  assert (H : snap_currentView (stateRef driverRegisterWorld)
              <> passenger_register) by (cbn; discriminate).
  split; [exact H|].
  apply (C4_navigate_destination "{" "}" None (Some "Plaza Principal")
           (stateRef driverRegisterWorld) Started driverRegisterWorld).
  exact H.
Defined.

(** The claim as written fails on the driver registration view: the
    intent leaves the view where it was instead of opening the driver
    dashboard. *)
Lemma C4_driver_register_counterexample :
  let w := driverRegisterWorld in
  let w' := dispatch "{" "}" NAVIGATE_DESTINATION None (Some "Plaza Principal")
              (stateRef w) Started w in
  snap_currentView (stateRef w) = driver_register /\
  currentView (app w') = driver_register /\
  currentView (app w') <> driver_dashboard.
Proof.
  cbn. repeat split; discriminate.
Qed.

(** ** The life cycle of the trip request *)

(** C8 (as the code has it): the trip request is reset to the empty
    record when a trip is completed by anyone but a passenger and when a
    rating is submitted; completing a trip as a passenger only opens the
    rating view, and cancelling the search only clears the active trip:
    both leave the trip request as it was. *)
Theorem C8_trip_request_reset :
  forall w,
    (userType (app w) <> Some passenger ->
     tripRequest (app (exec completeTrip w)) = emptyTripRequest /\
     activeTrip (app (exec completeTrip w)) = None) /\
    (forall star,
     tripRequest (app (exec (submitRating star) w)) = emptyTripRequest /\
     activeTrip (app (exec (submitRating star) w)) = None) /\
    (userType (app w) = Some passenger ->
     tripRequest (app (exec completeTrip w)) = tripRequest (app w) /\
     currentView (app (exec completeTrip w)) = rate_driver) /\
    (snap_currentView (stateRef w) = searching ->
     tripRequest (app (exec goBack w)) = tripRequest (app w) /\
     activeTrip (app (exec goBack w)) = None /\
     currentView (app (exec goBack w)) = passenger_dashboard).
Proof.
  intro w. repeat split.
  - unfold completeTrip. js_unfold. cbn.
    destruct (userType (app w)) as [[]|]; try contradiction;
      cbn; js_cases w; reflexivity.
  - unfold completeTrip. js_unfold. cbn.
    destruct (userType (app w)) as [[]|]; try contradiction;
      cbn; js_cases w; reflexivity.
  - unfold submitRating. js_unfold. cbn. js_cases w; reflexivity.
  - unfold submitRating. js_unfold. cbn. js_cases w; reflexivity.
  - unfold completeTrip. js_unfold. cbn. rewrite H. cbn.
    js_cases w; reflexivity.
  - unfold completeTrip. js_unfold. cbn. rewrite H. cbn.
    js_cases w; reflexivity.
  - unfold goBack. js_unfold. cbn. rewrite H. reflexivity.
  - unfold goBack. js_unfold. cbn. rewrite H. reflexivity.
  - unfold goBack. js_unfold. cbn. rewrite H. reflexivity.
Qed.

Lemma C8_trip_request_reset_witness :
  (userType (app (initialWorld true 0)) <> Some passenger /\
   tripRequest (app (exec completeTrip (initialWorld true 0)))
   = emptyTripRequest) /\
  (userType (app searchingWorld) = Some passenger /\
   tripRequest (app (exec completeTrip searchingWorld))
   = tripRequest (app searchingWorld)) /\
  (snap_currentView (stateRef searchingWorld) = searching /\
   tripRequest (app (exec goBack searchingWorld))
   = tripRequest (app searchingWorld)).
Proof.
  assert (H1 : userType (app (initialWorld true 0)) <> Some passenger)
    by (cbn; discriminate).
  assert (H2 : userType (app searchingWorld) = Some passenger)
    by reflexivity.
  assert (H3 : snap_currentView (stateRef searchingWorld) = searching)
    by reflexivity.
  destruct (C8_trip_request_reset (initialWorld true 0)) as (A & _).
  destruct (C8_trip_request_reset searchingWorld) as (_ & _ & B & C).
  split; [|split].
  - split; [exact H1 | exact (proj1 (A H1))].
  - split; [exact H2 | exact (proj1 (B H2))].
  - split; [exact H3 | exact (proj1 (C H3))].
Defined.

(** The claim as written fails when the search is cancelled: the back
    action on the searching view clears the active trip and keeps the
    trip request, coordinates included. *)
Lemma C8_cancel_search_counterexample :
  let w' := step searchingWorld BackButton in
  currentView (app searchingWorld) = searching /\
  activeTrip (app w') = None /\
  tripRequest (app w') = bogotaRequest /\
  tripRequest (app w') <> emptyTripRequest.
Proof.
  cbn. repeat split. discriminate.
Qed.

(** ** The back action on the rating view *)



(** ** A failed interpretation *)

(** What [startListening] can do to the world: nothing, a failed
    [start()], or a successful one, and the latter two only behind the
    guard. *)
Lemma startListening_cases (o : StartOutcome) (w : World) :
  let w' := exec (startListening o) w in
  w' = w \/
  (recognitionRef w = true /\
   snap_aiSpeaking (stateRef w) = false /\
   processingRef w = false /\
   snap_isListening (stateRef w) = false /\
   ((exists e, o = StartThrows e /\
               w' = set_calls (calls w ++ [RecognitionStart]) w) \/
    (o = Started /\
     w' = with_voice (set_isListening true)
            (set_calls (calls w ++ [RecognitionStart]) w)))).
Proof.
  unfold startListening. js_unfold. cbn.
  destruct (recognitionRef w) eqn:R; cbn; [|now left].
  destruct (snap_aiSpeaking (stateRef w)) eqn:A; cbn; [now left|].
  destruct (processingRef w) eqn:P; cbn; [now left|].
  destruct (snap_isListening (stateRef w)) eqn:L; cbn; [now left|].
  right. repeat split.
  destruct o as [|e]; cbn.
  - right. split; reflexivity.
  - left. exists e. split; [reflexivity|].
    destruct (worth_logging e); reflexivity.
Qed.

(** C2 (as the code has it): when the interpretation fails while a
    transcript is being processed, no prompt is scheduled or spoken, the
    application state is untouched, the processing flag is cleared and
    start-listening is requested if the voice feature is enabled: with
    [stateRef.current.voiceActive] set the handler ends with the call of
    [startListening], which calls [recognition.start()] when the guard
    of [startListening] lets it through, and with it unset the handler
    ends after clearing the flag, without any call to the adapter.  The
    request is a no-op while [processingRef] is still set, and the
    session is listening again after the next heartbeat tick. *)
Theorem C2_failed_interpretation_is_silent :
  forall w reply o text cs rest,
    pendingAi w = (text, cs) :: rest ->
    interpretation_fails reply = true ->
    let w' := exec (processVoiceCommand_resume reply o) w in
    app w' = app w /\
    timeouts w' = timeouts w /\
    synthQueue w' = synthQueue w /\
    (calls w' = (calls w ++ [ConsoleError])%list \/
     calls w' = (calls w ++ [ConsoleError; RecognitionStart])%list) /\
    isProcessing (voice w') = false /\
    aiSpeaking (voice w') = aiSpeaking (voice w) /\
    voiceActive (voice w') = voiceActive (voice w) /\
    (processingRef w = true -> isListening (voice w') = isListening (voice w)) /\
    (voiceActive (voice w) = true -> aiSpeaking (voice w) = false ->
     recognitionRef w = true ->
     isListening (voice (step (commit w') (HeartbeatTick Started))) = true) /\
    (let cleared := with_voice (set_isProcessing false)
                      (set_calls (calls w ++ [ConsoleError])
                         (set_pendingAi rest w)) in
     (snap_voiceActive (stateRef w) = true ->
      w' = exec (startListening o) cleared) /\
     (snap_voiceActive (stateRef w) = false ->
      w' = cleared /\ calls w' = (calls w ++ [ConsoleError])%list) /\
     (snap_voiceActive (stateRef w) = true ->
      recognitionRef w = true ->
      snap_aiSpeaking (stateRef w) = false ->
      processingRef w = false ->
      snap_isListening (stateRef w) = false ->
      calls w' = (calls w ++ [ConsoleError; RecognitionStart])%list)).
Proof.
  intros w reply o text cs rest Hp Hf w'.
  set (w1 := with_voice (set_isProcessing false)
               (set_calls (calls w ++ [ConsoleError]) (set_pendingAi rest w))).
  assert (E : w' = if snap_voiceActive (stateRef w)
                   then exec (startListening o) w1 else w1).
  { subst w' w1. unfold processVoiceCommand_resume.
    unfold exec, bind at 1, gets at 1. rewrite Hp.
    destruct reply as [e|t p]; cbn in Hf.
    - js_unfold. cbn. destruct (snap_voiceActive (stateRef w)); reflexivity.
    - destruct (truthy_str t) eqn:T; cbn in Hf.
      + destruct p; [|discriminate].
        unfold getGeminiResponse_resume. rewrite T. js_unfold. cbn.
        destruct (snap_voiceActive (stateRef w)); reflexivity.
      + unfold getGeminiResponse_resume. rewrite T. js_unfold. cbn.
        destruct (snap_voiceActive (stateRef w)); reflexivity. }
  clearbody w'.
  assert (C : w' = w1 \/
              (processingRef w = false /\
               (w' = set_calls (calls w1 ++ [RecognitionStart]) w1 \/
                w' = with_voice (set_isListening true)
                       (set_calls (calls w1 ++ [RecognitionStart]) w1)))).
  { rewrite E. destruct (snap_voiceActive (stateRef w)); [|now left].
    destruct (startListening_cases o w1) as [H|(_ & _ & P & _ & H)].
    - left. exact H.
    - right. split; [exact P|].
      destruct H as [(e & _ & H)|(_ & H)]; [left|right]; exact H. }
  assert (F : w' = w1 \/
              w' = set_calls (calls w1 ++ [RecognitionStart]) w1 \/
              w' = with_voice (set_isListening true)
                     (set_calls (calls w1 ++ [RecognitionStart]) w1))
    by (destruct C as [H|(_ & [H|H])]; auto).
  assert (Q : (snap_voiceActive (stateRef w) = true ->
               w' = exec (startListening o) w1) /\
              (snap_voiceActive (stateRef w) = false ->
               w' = w1 /\ calls w' = (calls w ++ [ConsoleError])%list) /\
              (snap_voiceActive (stateRef w) = true ->
               recognitionRef w = true ->
               snap_aiSpeaking (stateRef w) = false ->
               processingRef w = false ->
               snap_isListening (stateRef w) = false ->
               calls w' = (calls w ++ [ConsoleError; RecognitionStart])%list)).
  { split; [|split].
    - intros V. now rewrite E, V.
    - intros V. rewrite E, V. now split.
    - intros V R A P L. rewrite E, V. subst w1.
      unfold startListening. js_unfold. cbn.
      repeat (progress (rewrite ?R, ?A, ?P, ?L; cbn)).
      destruct o as [|e]; cbn; try destruct (worth_logging e); cbn;
        now rewrite <- app_assoc. }
  refine (conj _ (conj _ (conj _ (conj _ (conj _ (conj _ (conj _
            (conj _ (conj _ Q))))))))).
  - destruct F as [->|[->| ->]]; reflexivity.
  - destruct F as [->|[->| ->]]; reflexivity.
  - destruct F as [->|[->| ->]]; reflexivity.
  - destruct F as [->|[->| ->]]; cbn; rewrite <- ?app_assoc; auto.
  - destruct F as [->|[->| ->]]; reflexivity.
  - destruct F as [->|[->| ->]]; reflexivity.
  - destruct F as [->|[->| ->]]; reflexivity.
  - intros P. destruct C as [->|(P' & _)]; [reflexivity|congruence].
  - intros V A R.
    assert (Vw : voiceActive (voice w') = true)
      by (destruct F as [->|[->| ->]]; exact V).
    assert (Aw : aiSpeaking (voice w') = false)
      by (destruct F as [->|[->| ->]]; exact A).
    assert (Pw : isProcessing (voice w') = false)
      by (destruct F as [->|[->| ->]]; reflexivity).
    assert (Rw : recognitionRef w' = true)
      by (destruct F as [->|[->| ->]]; exact R).
    clear E C F. unfold step. cbn. unfold heartbeat, startListening.
    js_unfold. cbn. rewrite Vw. cbn.
    rewrite Aw, Pw.
    destruct (isListening (voice w')) eqn:L; cbn;
      repeat (progress (rewrite ?Rw, ?Aw, ?Pw, ?L; cbn)); reflexivity.
Qed.

Lemma C2_failed_interpretation_witness :
  let w' := exec (processVoiceCommand_resume
                    (CallRejected (Error "timeout")) Started) processingWorld in
  pendingAi processingWorld
  = [("Llevame al parque", stateRef listeningWorld)] /\
  app w' = app processingWorld /\
  timeouts w' = timeouts processingWorld /\
  snap_voiceActive (stateRef processingWorld) = true /\
  w' = exec (startListening Started)
         (with_voice (set_isProcessing false)
            (set_calls (calls processingWorld ++ [ConsoleError])
               (set_pendingAi [] processingWorld))).
Proof.
  assert (H : pendingAi processingWorld
              = [("Llevame al parque", stateRef listeningWorld)])
    by (vm_compute; reflexivity).
  assert (V : snap_voiceActive (stateRef processingWorld) = true)
    by (vm_compute; reflexivity).
  destruct (@C2_failed_interpretation_is_silent processingWorld
              (CallRejected (Error "timeout")) Started _ _ _ H eq_refl)
    as (A & T & _ & _ & _ & _ & _ & _ & _ & Q & _).
  exact (conj H (conj A (conj T (conj V (Q V))))).
Defined.

(** The claim as written fails when the call of the intent service times
    out: no apology is scheduled, queued or spoken, and the session is
    not listening when the handler is done, although the voice feature is
    enabled. *)
Lemma C2_timeout_counterexample :
  let w' := step processingWorld
              (IntentServiceReply (CallRejected (Error "timeout")) Started) in
  voiceActive (voice processingWorld) = true /\
  isProcessing (voice processingWorld) = true /\
  timeouts w' = [] /\
  synthQueue w' = [] /\
  calls w' = (calls processingWorld ++ [ConsoleError])%list /\
  (forall text, ~ In (SynthSpeak text) [ConsoleError]) /\
  isListening (voice w') = false.
Proof.
  lazy. repeat split. intros text [H|[]]. discriminate H.
Qed.

(** ** Capture start failures *)

(** C3 (as the code has it): every failure of [recognition.start()], the
    permission denial included, is swallowed by [startListening]: the
    handler returns normally and changes nothing but the call trace.  The
    voice feature stays enabled, the heartbeat stays armed, and with the
    session idle its next tick calls [recognition.start()] again. *)
Theorem C3_start_failures_are_left_to_the_heartbeat :
  forall w e o,
    voiceActive (voice w) = true ->
    isListening (voice w) = false ->
    aiSpeaking (voice w) = false ->
    isProcessing (voice w) = false ->
    recognitionRef w = true ->
    (fst (startListening (StartThrows e) (commit w)) = Normal tt /\
     exec (startListening (StartThrows e)) (commit w)
     = set_calls (calls w ++ [RecognitionStart]) (commit w)) /\
    let w1 := step (commit w) (HeartbeatTick (StartThrows e)) in
    voice w1 = voice w /\
    app w1 = app w /\
    timeouts w1 = timeouts w /\
    heartbeatRef w1 = true /\
    calls w1 = (calls w ++ [heartbeatLog; RecognitionStart])%list /\
    calls (step w1 (HeartbeatTick o))
    = (calls w1 ++ [heartbeatLog; RecognitionStart])%list /\
    isListening (voice (step w1 (HeartbeatTick Started))) = true.
Proof.
  intros w e o V L A P R.
  assert (S : forall w0 : World,
    recognitionRef w0 = true ->
    snap_aiSpeaking (stateRef w0) = false ->
    processingRef w0 = false ->
    snap_isListening (stateRef w0) = false ->
    startListening (StartThrows e) w0
    = (Normal tt, set_calls (calls w0 ++ [RecognitionStart]) w0)).
  { intros w0 R0 A0 P0 L0. unfold startListening. js_unfold.
    cbn. rewrite R0. cbn. rewrite A0, P0, L0. cbn.
    destruct (worth_logging e); reflexivity. }
  assert (S1 : startListening (StartThrows e) (commit w)
               = (Normal tt, set_calls (calls w ++ [RecognitionStart]) (commit w)))
    by (rewrite S by (cbn; assumption); reflexivity).
  split; [unfold exec; rewrite S1; split; reflexivity|].
  assert (E1 : step (commit w) (HeartbeatTick (StartThrows e))
               = commit (set_calls (calls w ++ [heartbeatLog; RecognitionStart]) w)).
  { unfold step, exec, heartbeatLog. cbn -[startListening].
    unfold heartbeat. js_unfold.
    repeat (progress (cbn -[startListening]; rewrite ?V, ?L, ?A, ?P)).
    rewrite S by (cbn; assumption).
    cbn. rewrite <- app_assoc. reflexivity. }
  cbn zeta. rewrite E1. cbn [voice app timeouts heartbeatRef calls commit set_calls].
  repeat split; try assumption.
  - unfold step, exec. cbn. unfold heartbeat, startListening. js_unfold.
    repeat (progress (cbn; rewrite ?V, ?L, ?A, ?P, ?R)).
    destruct o as [|e']; cbn; [|destruct (worth_logging e')];
      cbn; rewrite <- app_assoc; reflexivity.
  - unfold step, exec. cbn. unfold heartbeat, startListening. js_unfold.
    repeat (progress (cbn; rewrite ?V, ?L, ?A, ?P, ?R)). reflexivity.
Qed.

Lemma C3_start_failures_witness :
  let w := step waitingWorld (TimeoutFires ResumeTimeout (StartThrows not_allowed)) in
  let w1 := step (commit w) (HeartbeatTick (StartThrows not_allowed)) in
  voiceActive (voice w) = true /\
  voice w1 = voice w /\
  heartbeatRef w1 = true.
Proof.
  set (w := step waitingWorld
              (TimeoutFires ResumeTimeout (StartThrows not_allowed))).
  assert (V : voiceActive (voice w) = true) by (vm_compute; reflexivity).
  assert (L : isListening (voice w) = false) by (vm_compute; reflexivity).
  assert (A : aiSpeaking (voice w) = false) by (vm_compute; reflexivity).
  assert (P : isProcessing (voice w) = false) by (vm_compute; reflexivity).
  assert (R : recognitionRef w = true) by (vm_compute; reflexivity).
  destruct (@C3_start_failures_are_left_to_the_heartbeat
              w not_allowed Started V L A P R) as (_ & E & _ & _ & H & _).
  exact (conj V (conj E H)).
Defined.

(** The claim as written fails: after [recognition.start()] has failed
    with the permission denial the voice feature is still enabled, the
    heartbeat is still armed, and its next ticks call
    [recognition.start()] again and again. *)
Lemma C3_permission_denied_counterexample :
  let w1 := step waitingWorld
              (TimeoutFires ResumeTimeout (StartThrows not_allowed)) in
  let w2 := step w1 (HeartbeatTick (StartThrows not_allowed)) in
  let w3 := step w2 (HeartbeatTick Started) in
  calls w1 = (calls waitingWorld ++ [RecognitionStart])%list /\
  voiceActive (voice w1) = true /\
  heartbeatRef w1 = true /\
  calls w2 = (calls w1 ++ [heartbeatLog; RecognitionStart])%list /\
  voiceActive (voice w2) = true /\
  heartbeatRef w2 = true /\
  calls w3 = (calls w2 ++ [heartbeatLog; RecognitionStart])%list /\
  isListening (voice w3) = true.
Proof.
  vm_compute. repeat split.
Qed.

(** ** Switching the voice feature on and off *)

Lemma toggle_on (w : World) :
  voiceActive (voice w) = false ->
  exec toggleVoiceAssistant w
  = exec (speak greeting) (with_voice (set_voiceActive true) w).
Proof.
  intro V. unfold toggleVoiceAssistant, exec, bind, gets, setVoiceActive, modify.
  cbn -[speak]. rewrite V. reflexivity.
Qed.

Lemma toggle_off (w : World) :
  voiceActive (voice w) = true ->
  let w' := exec toggleVoiceAssistant w in
  voice w' =
    set_transcript "" (set_aiSpeaking false (set_isListening false
      (set_voiceActive false (voice w)))) /\
  app w' = app w /\
  synthQueue w' = [] /\
  timeouts w' = timeouts w /\
  recognitionRef w' = recognitionRef w.
Proof.
  intro V. unfold toggleVoiceAssistant. js_unfold. cbn. rewrite V. cbn.
  destruct (recognitionRef w) eqn:R; cbn; rewrite ?R; repeat split; reflexivity.
Qed.

(** From any world with the feature off, two presses of the voice button
    leave every phase flag down, the feature off and the heartbeat
    disarmed; the 50 ms timeout of the greeting is still pending, and
    when it fires the greeting is handed to the synthesiser. *)
Lemma enable_then_disable (w : World) (o : StartOutcome) :
  voiceActive (voice w) = false ->
  let w2 := step (step w VoiceButton) VoiceButton in
  isListening (voice w2) = false /\
  aiSpeaking (voice w2) = false /\
  isProcessing (voice w2) = false /\
  voiceActive (voice w2) = false /\
  heartbeatRef (step w VoiceButton) = true /\
  heartbeatRef w2 = false /\
  synthQueue w2 = [] /\
  timeouts w2 = (timeouts w ++ [SpeakTimeout greeting])%list /\
  let w3 := step w2 (TimeoutFires (SpeakTimeout greeting) o) in
  synthQueue w3 = [greeting] /\
  voiceActive (voice w3) = false.
Proof.
  intros V. cbn zeta.
  pose proof (speak_spec greeting (with_voice (set_voiceActive true) w)) as S.
  cbn zeta in S. rewrite <- (toggle_on w V) in S.
  destruct S as (_ & _ & Sv & St & _).
  set (w1 := step w VoiceButton).
  assert (V1 : voiceActive (voice w1) = true)
    by (subst w1; unfold step; cbn [voice commit handler]; now rewrite Sv).
  assert (T1 : timeouts w1 = (timeouts w ++ [SpeakTimeout greeting])%list)
    by (subst w1; unfold step; cbn [timeouts commit handler]; exact St).
  assert (P1 : isProcessing (voice w1) = false)
    by (subst w1; unfold step; cbn [voice commit handler]; now rewrite Sv).
  destruct (toggle_off w1 V1) as (Tv & _ & Tq & Tt & _).
  set (w2 := step w1 VoiceButton).
  assert (V2 : voice w2 = set_transcript "" (set_aiSpeaking false
            (set_isListening false (set_voiceActive false (voice w1)))))
    by exact Tv.
  assert (Q2 : synthQueue w2 = []) by exact Tq.
  assert (T2 : timeouts w2 = (timeouts w ++ [SpeakTimeout greeting])%list)
    by (rewrite <- T1; exact Tt).
  assert (In2 : In (SpeakTimeout greeting) (timeouts w2))
    by (rewrite T2; apply in_or_app; right; now left).
  destruct (speak_timeout_fires greeting o w2 In2) as (_ & F & Fv & _).
  repeat split.
  - now rewrite V2.
  - now rewrite V2.
  - rewrite V2. exact P1.
  - now rewrite V2.
  - exact V1.
  - subst w2. unfold step. cbn [heartbeatRef commit handler]. now rewrite Tv.
  - exact Q2.
  - exact T2.
  - unfold step. cbn [synthQueue commit]. rewrite F, Q2. reflexivity.
  - unfold step. cbn [voice commit]. rewrite Fv, V2. reflexivity.
Qed.

(** C9, evaluated from the first render: the voice feature is enabled and
    at once disabled.  The phase flags are down, the feature is off and
    the heartbeat is disarmed; yet the timeout that [speak] set for the
    greeting survives the disabling, and when it fires the greeting is
    handed to the synthesiser although the feature is off.  The flags
    stay down through it and through the end of that utterance. *)
Theorem C9_disable_leaves_the_greeting_pending :
  let w2 := run (initialWorld true 0) [VoiceButton; VoiceButton] in
  let w3 := step w2 (TimeoutFires (SpeakTimeout greeting) Started) in
  let w4 := step w3 UtteranceEnd in
  voice w2 = initialVoice /\
  heartbeatRef w2 = false /\
  synthQueue w2 = [] /\
  timeouts w2 = [SpeakTimeout greeting] /\
  calls w2 = [RecognitionStop; SynthCancel; RecognitionStop] /\
  voice w3 = initialVoice /\
  synthQueue w3 = [greeting] /\
  calls w3 = [RecognitionStop; SynthCancel; RecognitionStop; SynthSpeak greeting] /\
  voice w4 = initialVoice /\
  timeouts w4 = [].
Proof.
  vm_compute. repeat split.
Qed.

(** ** Listening and speaking *)

(** C1, evaluated on a run: capture has been requested; "Continuar" is
    pressed with the name still empty, so [speak] stops capture and marks
    speaking active; then the start event of the earlier
    [recognition.start()] arrives and its handler sets [isListening]
    without looking at [aiSpeaking]: both flags are up. *)
Theorem C1_start_event_while_speaking :
  let w0 := captureRequestedWorld in
  let w1 := step w0 ContinueButton in
  let w2 := step w1 RecognitionStarted in
  calls w0 = [RecognitionStop; SynthSpeak greeting; RecognitionStart] /\
  (isListening (voice w0) = true /\ aiSpeaking (voice w0) = false) /\
  calls w1 = (calls w0 ++ [RecognitionStop])%list /\
  (isListening (voice w1) = false /\ aiSpeaking (voice w1) = true) /\
  (isListening (voice w2) = true /\ aiSpeaking (voice w2) = true).
Proof.
  vm_compute. repeat split.
Qed.

Lemma commit_rendered (w : World) : rendered (commit w).
Proof. split; reflexivity. Qed.

Ltac split_cases :=
  repeat (cbn;
    match goal with
    | |- context [match ?x with _ => _ end] =>
        lazymatch x with
        | context [match _ with _ => _ end] => fail
        | _ => destruct x eqn:?
        end
    end).

(** Every handler but the one of the start event keeps the flags
    exclusive: [speak] lowers [isListening] before it raises
    [aiSpeaking], and [startListening] raises [isListening] only when
    the refs say that nothing is spoken or processed. *)
Lemma handler_exclusive (e : Event) (w : World) :
  e <> RecognitionStarted -> rendered w -> exclusive w ->
  exclusive (exec (handler e) w).
Proof.
  intros Ne [Rs Rp] X. unfold exclusive in *.
  destruct w as [a v sr pr hb si rr sq tm pa nw cl].
  unfold snapshot_of in Rs. cbn in Rs, Rp, X. subst sr pr.
  destruct v as [l p t s va]. cbn in X.
  destruct e; try congruence; clear Ne;
    unfold handler, toggleVoiceAssistant, heartbeat, timeout_callback,
      speak_timeout, trip_accepted_timeout, resumeListening,
      recognition_onend, recognition_onresult, processVoiceCommand,
      getGeminiResponse_send, recognition_onerror,
      processVoiceCommand_resume, getGeminiResponse_resume,
      execute_action, value_string, goBack, completeTrip, submitRating,
      requestTrip, passenger_click, driver_click, continue_click,
      simulation_tick, startListening;
    js_unfold; split_cases; cbn; auto;
    try apply andb_false_r;
    try (destruct l, s; cbn in *; congruence).
Qed.

Lemma step_exclusive (e : Event) (w : World) :
  e <> RecognitionStarted -> rendered w -> exclusive w ->
  exclusive (step w e).
Proof.
  intros Ne R X. unfold step, exclusive. cbn [voice commit].
  now apply handler_exclusive.
Qed.

(** Along every run in which the start event of the capture adapter does
    not occur, listening and speaking exclude each other. *)
Lemma run_exclusive (es : list Event) :
  forall w,
    rendered w -> exclusive w ->
    Forall (fun e => e <> RecognitionStarted) es ->
    exclusive (run w es).
Proof.
  induction es as [|e es IH]; intros w R X F; [exact X|].
  inversion F as [|? ? Ne F']; subst. cbn [run fold_left].
  apply IH; [apply commit_rendered | now apply step_exclusive | exact F'].
Qed.

(** ** The position simulation *)

Lemma norm_sqr (x y : R) : norm x y * norm x y = x * x + y * y.
Proof. apply sqrt_sqrt. nra. Qed.

Lemma norm_pos (x y : R) : 0 <= norm x y.
Proof. apply sqrt_pos. Qed.

Lemma sqrt_one_plus_ratio (x y : R) :
  x <> 0 -> sqrt (1 + (y / x)²) = norm x y / Rabs x.
Proof.
  intros Hx. pose proof (Rabs_pos_lt x Hx) as Ha.
  apply sqrt_lem_1.
  - unfold Rsqr. nra.
  - apply Rmult_le_pos; [apply norm_pos|]. left. now apply Rinv_0_lt_compat.
  - replace (norm x y / Rabs x * (norm x y / Rabs x))
      with ((norm x y * norm x y) / (Rabs x * Rabs x)) by (field; lra).
    rewrite norm_sqr.
    replace (Rabs x * Rabs x) with (x * x)
      by (unfold Rabs; destruct (Rcase_abs x); ring).
    unfold Rsqr. field. exact Hx.
Qed.

(** [atan2] gives the direction of the vector: its cosine and sine are
    the normalised coordinates. *)
Lemma atan2_direction (y x : R) :
  0 < norm x y ->
  cos (atan2 y x) = x / norm x y /\ sin (atan2 y x) = y / norm x y.
Proof.
  intros Hd. unfold atan2.
  destruct (Rlt_dec 0 x) as [Hx|Hx].
  - rewrite cos_atan, sin_atan, sqrt_one_plus_ratio by lra.
    rewrite Rabs_pos_eq by lra. split; field; lra.
  - destruct (Rlt_dec x 0) as [Hx'|Hx'].
    + assert (C : cos (atan (y / x)) = - x / norm x y).
      { rewrite cos_atan, sqrt_one_plus_ratio by lra.
        rewrite Rabs_left by lra. field. lra. }
      assert (S : sin (atan (y / x)) = - y / norm x y).
      { rewrite sin_atan, sqrt_one_plus_ratio by lra.
        rewrite Rabs_left by lra. field. lra. }
      destruct (Rle_dec 0 y).
      * rewrite neg_cos, neg_sin, C, S. split; field; lra.
      * rewrite cos_minus, sin_minus, cos_PI, sin_PI, C, S. split; field; lra.
    + assert (x = 0) by lra. subst x.
      assert (N : norm 0 y = Rabs y).
      { unfold norm. replace (0 * 0 + y * y) with (y²) by (unfold Rsqr; ring).
        apply sqrt_Rsqr_abs. }
      rewrite N in *.
      destruct (Rlt_dec 0 y).
      * rewrite cos_PI2, sin_PI2, Rabs_pos_eq by lra. split; field; lra.
      * destruct (Rlt_dec y 0).
        -- rewrite cos_neg, sin_neg, cos_PI2, sin_PI2, Rabs_left by lra.
           split; field; lra.
        -- assert (y = 0) by lra. subst y. rewrite Rabs_R0 in Hd. lra.
Qed.

(** The length left after a step of length [s] towards the target. *)
Lemma norm_after_move (x y s : R) :
  0 < norm x y -> s <= norm x y -> 0 <= s ->
  norm (x - x / norm x y * s) (y - y / norm x y * s) = norm x y - s.
Proof.
  intros Hd Hs H0. set (d := norm x y) in *.
  unfold norm at 1. apply sqrt_lem_1.
  - apply Rplus_le_le_0_compat; apply Rle_0_sqr.
  - lra.
  - pose proof (norm_sqr x y) as Q. fold d in Q.
    replace ((x - x / d * s) * (x - x / d * s) + (y - y / d * s) * (y - y / d * s))
      with ((x * x + y * y) * ((d - s) * (d - s)) / (d * d)) by (field; lra).
    rewrite <- Q. field. lra.
Qed.

Lemma truthy_nonzero (x : R) : x <> 0 -> truthy x = true.
Proof. intro H. unfold truthy. destruct (Req_dec_T x 0); [contradiction|reflexivity]. Qed.

Lemma truthy_zero (x : R) : x = 0 -> truthy x = false.
Proof. intro H. unfold truthy. destruct (Req_dec_T x 0); [reflexivity|contradiction]. Qed.

(** Away from the zero coordinates a tick does what the specification
    says: at a distance of at least 0.0005 it brings the driver exactly
    0.0005 closer, below that distance it puts the driver on the
    target. *)
Lemma simulate_approaches (t : Trip) (a b : R) :
  driverLat t = Some a -> driverLng t = Some b -> a <> 0 -> b <> 0 ->
  exists t',
    simulate (Some t) = Some t' /\
    trip_pickupLat t' = trip_pickupLat t /\
    trip_pickupLng t' = trip_pickupLng t /\
    (0.0005 <= distance_to_target t ->
     distance_to_target t' = distance_to_target t - 0.0005 /\
     distance_to_target t' < distance_to_target t) /\
    (distance_to_target t < 0.0005 ->
     driverLat t' = Some (trip_pickupLat t) /\
     driverLng t' = Some (trip_pickupLng t)).
Proof.
  intros Ha Hb Na Nb. unfold simulate, distance_to_target.
  rewrite Ha, Hb. cbn [truthy_opt to_number].
  rewrite (truthy_nonzero Na), (truthy_nonzero Nb). cbn [negb orb].
  set (dy := trip_pickupLat t - a). set (dx := trip_pickupLng t - b).
  fold (norm dx dy).
  destruct (Rlt_dec (norm dx dy) 0.0005) as [Hn|Hf].
  - eexists. split; [reflexivity|]. cbn. repeat split; try lra.
  - eexists. split; [reflexivity|]. cbn [with_driver_position trip_pickupLat
      trip_pickupLng driverLat driverLng to_number].
    split; [reflexivity|]. split; [reflexivity|]. split; [|intro; lra].
    intros _.
    assert (Hd : 0 < norm dx dy) by lra.
    destruct (atan2_direction dy dx Hd) as [C S]. rewrite C, S.
    replace (trip_pickupLng t - (b + dx / norm dx dy * 0.0005))
      with (dx - dx / norm dx dy * 0.0005) by (subst dx; ring).
    replace (trip_pickupLat t - (a + dy / norm dx dy * 0.0005))
      with (dy - dy / norm dx dy * 0.0005) by (subst dy; ring).
    rewrite norm_after_move by lra. lra.
Qed.

(** Once on the target the driver stays there. *)
Lemma simulate_at_target (t : Trip) :
  driverLat t = Some (trip_pickupLat t) ->
  driverLng t = Some (trip_pickupLng t) ->
  exists t',
    simulate (Some t) = Some t' /\
    driverLat t' = driverLat t /\ driverLng t' = driverLng t.
Proof.
  intros Ha Hb. unfold simulate. rewrite Ha, Hb. cbn [truthy_opt to_number].
  destruct (negb (truthy (trip_pickupLat t)) || negb (truthy (trip_pickupLng t))).
  - eexists. split; [reflexivity|]. now rewrite Ha, Hb.
  - replace (trip_pickupLat t - trip_pickupLat t) with 0 by ring.
    replace (trip_pickupLng t - trip_pickupLng t) with 0 by ring.
    replace (0 * 0 + 0 * 0) with 0 by ring. rewrite sqrt_0.
    destruct (Rlt_dec 0 0.0005) as [_|N]; [|lra].
    eexists. split; [reflexivity|]. split; reflexivity.
Qed.

(** C7, evaluated on a trip: the driver stands on latitude 0, more than
    0.0005 away from the pickup point; the tick takes the zero latitude
    for a missing position and returns the trip as it was, so the
    distance never decreases and the driver never arrives. *)
Theorem C7_driver_on_latitude_zero_never_moves :
  driverLat equatorTrip = Some (0.005 - 0.005) /\
  0.005 - 0.005 = 0 /\
  0.0005 <= distance_to_target equatorTrip /\
  simulate (Some equatorTrip) = Some equatorTrip /\
  (forall t', simulate (Some equatorTrip) = Some t' ->
              ~ distance_to_target t' < distance_to_target equatorTrip) /\
  forall n, Nat.iter n simulate (Some equatorTrip) = Some equatorTrip.
Proof.
  assert (S : simulate (Some equatorTrip) = Some equatorTrip).
  { unfold simulate. cbn [equatorTrip accept_trip driverLat driverLng
      trip_pickupLat truthy_opt].
    rewrite (@truthy_zero (0.005 - 0.005)) by lra. reflexivity. }
  split; [reflexivity|]. split; [lra|].
  split; [|split; [exact S|split]].
  - unfold distance_to_target, norm.
    cbn [equatorTrip accept_trip driverLat driverLng trip_pickupLat
      trip_pickupLng to_number].
    rewrite <- (sqrt_square 0.0005) at 1 by lra.
    apply sqrt_le_1_alt. lra.
  - intros t' E. rewrite S in E. injection E as <-. lra.
  - induction n as [|n IH]; [reflexivity|].
    rewrite Nat.iter_succ, IH. exact S.
Qed.

(** * Further properties *)

(** ** Every handler of the component *)

Ltac ui_unfold :=
  unfold ui_handler, handleSetDestination_start,
    handleSetDestination_located, handleSetDestination_locate,
    handleSetDestination_finish, handleGetCurrentLocation_begin,
    handleGetCurrentLocation_resume, handlePhotoUpload, photo_onloadend,
    name_change, phone_change, plate_change, toggle_driver_status,
    accept_trip_click, updateTripRequest, setTrips, setUserLocation,
    setIsFetchingLocation in *.

Lemma ui_handler_exclusive
    (cd : number -> number -> number -> number -> number)
    (cp : number -> number) (e : UiEvent) (w : World) :
  e <> Core RecognitionStarted -> rendered w -> exclusive w ->
  exclusive (exec (ui_handler cd cp e) w).
Proof.
  intros Ne R X. destruct e as [e| | | | | | | | | | | | ];
    try (apply handler_exclusive; [congruence | exact R | exact X]);
    clear Ne; destruct R as [Rs Rp]; unfold exclusive in *;
    destruct w as [a v sr pr hb si rr sq tm pa nw cl];
    unfold snapshot_of in Rs; cbn in Rs, Rp, X; subst sr pr;
    destruct v as [l p t s va]; cbn in X;
    ui_unfold; js_unfold; split_cases; cbn; auto.
Qed.

(** X1: along every run of the component in which the start event of
    the capture adapter does not occur, [isListening] and [aiSpeaking]
    are never both up, whatever the buttons, the forms, the timers, the
    adapters and the services do. *)
Theorem ui_run_exclusive
    (cd : number -> number -> number -> number -> number)
    (cp : number -> number) (es : list UiEvent) :
  forall w,
    rendered w -> exclusive w ->
    Forall (fun e => e <> Core RecognitionStarted) es ->
    exclusive (ui_run cd cp w es).
Proof.
  induction es as [|e es IH]; intros w R X F; [exact X|].
  inversion F as [|? ? Ne F']; subst.
  cbn [ui_run fold_left].
  apply IH; [apply commit_rendered | | exact F'].
  unfold ui_step, exclusive. cbn [voice commit].
  now apply ui_handler_exclusive.
Qed.

Lemma ui_run_exclusive_witness :
  let es := [Core VoiceButton;
             Core (TimeoutFires (SpeakTimeout greeting) Started);
             Core UtteranceEnd; Core (TimeoutFires ResumeTimeout Started);
             PhotoChosen true; LocationButton; LocationAnswer None;
             Core (HeartbeatTick Started)] in
  Forall (fun e => e <> Core RecognitionStarted) es /\
  exclusive (ui_run (fun _ _ _ _ => 1) (fun d => d * 2500)
               (initialWorld true 0) es).
Proof.
  cbn zeta.
  assert (F : Forall (fun e => e <> Core RecognitionStarted)
                [Core VoiceButton;
                 Core (TimeoutFires (SpeakTimeout greeting) Started);
                 Core UtteranceEnd; Core (TimeoutFires ResumeTimeout Started);
                 PhotoChosen true; LocationButton; LocationAnswer None;
                 Core (HeartbeatTick Started)])
    by (repeat constructor; discriminate).
  split; [exact F|].
  apply ui_run_exclusive; [split; reflexivity | reflexivity | exact F].
Defined.

Lemma ui_handler_without_recognition
    (cd : number -> number -> number -> number -> number)
    (cp : number -> number) (e : UiEvent) (w : World) :
  recognitionRef w = false ->
  no_capture_calls (calls w) = true ->
  recognitionRef (exec (ui_handler cd cp e) w) = false /\
  no_capture_calls (calls (exec (ui_handler cd cp e) w)) = true.
Proof.
  intros R N. unfold no_capture_calls in *.
  destruct w as [a v sr pr hb si rr sq tm pa nw cl].
  cbn in R, N. subst rr.
  destruct e as [e| | | | | | | | | | | | ]; [destruct e|..];
    ui_unfold;
    unfold handler, toggleVoiceAssistant, heartbeat, timeout_callback,
      speak_timeout, trip_accepted_timeout, resumeListening,
      recognition_onstart, recognition_onend, recognition_onresult,
      processVoiceCommand, getGeminiResponse_send, recognition_onerror,
      processVoiceCommand_resume, getGeminiResponse_resume,
      execute_action, value_string, goBack, completeTrip, submitRating,
      requestTrip, passenger_click, driver_click, continue_click,
      simulation_tick, startListening;
    js_unfold; split_cases; cbn;
    rewrite ?forallb_app; cbn; rewrite ?N; auto.
Qed.

(** X2: in a browser without speech recognition no handler of the
    component ever calls the capture adapter: along every run from the
    first render the call trace holds neither [recognition.start()] nor
    [recognition.stop()]. *)
Theorem no_recognition_no_capture_calls
    (cd : number -> number -> number -> number -> number)
    (cp : number -> number) (clock : Z) (es : list UiEvent) :
  let w := ui_run cd cp (initialWorld false clock) es in
  recognitionRef w = false /\
  ~ In RecognitionStart (calls w) /\
  ~ In RecognitionStop (calls w).
Proof.
  cbn zeta.
  assert (I : forall es w,
    recognitionRef w = false -> no_capture_calls (calls w) = true ->
    recognitionRef (ui_run cd cp w es) = false /\
    no_capture_calls (calls (ui_run cd cp w es)) = true).
  { clear es. induction es as [|e es IH]; intros w R N; [now split|].
    cbn [ui_run fold_left].
    destruct (ui_handler_without_recognition cd cp e w R N) as [R' N'].
    apply IH; unfold ui_step; cbn [recognitionRef calls commit]; assumption. }
  destruct (I es (initialWorld false clock) eq_refl eq_refl) as [R N].
  split; [exact R|].
  unfold no_capture_calls in N. rewrite forallb_forall in N.
  split; intros H; apply N in H; discriminate H.
Qed.

Lemma ui_handler_trips (cd : number -> number -> number -> number -> number)
    (cp : number -> number) (e : UiEvent) (w : World) :
  trips (app w) = [] -> trips (app (exec (ui_handler cd cp e) w)) = [].
Proof.
  intros T.
  destruct w as [a v sr pr hb si rr sq tm pa nw cl]. cbn in T.
  destruct e as [e| | | | | | | | | | | | ]; [destruct e|..];
    ui_unfold;
    unfold handler, toggleVoiceAssistant, heartbeat, timeout_callback,
      speak_timeout, trip_accepted_timeout, resumeListening,
      recognition_onstart, recognition_onend, recognition_onresult,
      processVoiceCommand, getGeminiResponse_send, recognition_onerror,
      processVoiceCommand_resume, getGeminiResponse_resume,
      execute_action, value_string, goBack, completeTrip, submitRating,
      requestTrip, passenger_click, driver_click, continue_click,
      simulation_tick, startListening;
    js_unfold; split_cases; cbn; auto.
Qed.

(** X3: no handler of the component ever puts a trip into [trips]:
    along every run from the first render the list of requests shown to
    the driver is empty, so the "Aceptar Viaje" button does nothing at
    any index. *)
Theorem trips_stay_empty
    (cd : number -> number -> number -> number -> number)
    (cp : number -> number) (hasRecognition : bool) (clock : Z)
    (es : list UiEvent) :
  let w := ui_run cd cp (initialWorld hasRecognition clock) es in
  trips (app w) = [] /\
  forall i, ui_step cd cp w (AcceptTripButton i) = w.
Proof.
  cbn zeta.
  assert (I : forall es w,
    trips (app w) = [] -> commit w = w ->
    trips (app (ui_run cd cp w es)) = [] /\
    commit (ui_run cd cp w es) = ui_run cd cp w es).
  { clear es. induction es as [|e es IH]; intros w T C; [now split|].
    cbn [ui_run fold_left]. apply IH.
    - unfold ui_step. cbn [app commit]. now apply ui_handler_trips.
    - reflexivity. }
  destruct (I es (initialWorld hasRecognition clock) eq_refl eq_refl) as [T C].
  split; [exact T|]. intro i.
  unfold ui_step at 1. cbn [ui_handler]. unfold accept_trip_click.
  js_unfold. cbn. rewrite T.
  destruct (View_eqb _ _); [|exact C].
  destruct (driverStatus _); destruct i; cbn; exact C.
Qed.

(** ** What the driver profile accumulates *)

Lemma ui_handler_accumulates
    (cd : number -> number -> number -> number -> number)
    (cp : number -> number) (e : UiEvent) (w : World) :
  (exists l,
     vehiclePhotos (driverProfile (app (exec (ui_handler cd cp e) w)))
     = (vehiclePhotos (driverProfile (app w)) ++ l)%list) /\
  (completedTrips (driverProfile (app w))
   <= completedTrips (driverProfile (app (exec (ui_handler cd cp e) w))))%Z.
Proof.
  destruct w as [a v sr pr hb si rr sq tm pa nw cl].
  destruct a as [ut cv ds tr at_ ul fl dp pp rq].
  destruct dp as [dn dd dph dpl dr ct dpo vp].
  destruct e as [e| | | | | | | | | | | | ]; [destruct e|..];
    ui_unfold;
    unfold handler, toggleVoiceAssistant, heartbeat, timeout_callback,
      speak_timeout, trip_accepted_timeout, resumeListening,
      recognition_onstart, recognition_onend, recognition_onresult,
      processVoiceCommand, getGeminiResponse_send, recognition_onerror,
      processVoiceCommand_resume, getGeminiResponse_resume,
      execute_action, value_string, goBack, completeTrip, submitRating,
      requestTrip, passenger_click, driver_click, continue_click,
      simulation_tick, startListening;
    js_unfold; split_cases; cbn;
    (split;
     [first [ exists []; rewrite app_nil_r; reflexivity
            | eexists; reflexivity ]
     | lia ]).
Qed.

(** X4: nothing the component does ever drops a vehicle photo or lowers
    the count of completed trips: along every run the list of vehicle
    photos is extended at its end only and the count never decreases. *)
Theorem photos_and_trip_count_only_grow
    (cd : number -> number -> number -> number -> number)
    (cp : number -> number) (es : list UiEvent) :
  forall w : World,
    let w' := ui_run cd cp w es in
    (exists l,
       vehiclePhotos (driverProfile (app w'))
       = (vehiclePhotos (driverProfile (app w)) ++ l)%list) /\
    (completedTrips (driverProfile (app w))
     <= completedTrips (driverProfile (app w')))%Z.
Proof.
  induction es as [|e es IH]; intros w; cbn zeta.
  - split; [exists []; now rewrite app_nil_r | cbn; lia].
  - cbn [ui_run fold_left].
    destruct (IH (ui_step cd cp w e)) as ((l2 & P2) & C2).
    destruct (ui_handler_accumulates cd cp e w) as ((l1 & P1) & C1).
    unfold ui_run in P2, C2. unfold ui_step in *. cbn [app commit] in *.
    split.
    + exists (l1 ++ l2)%list. now rewrite P2, P1, app_assoc.
    + lia.
Qed.

(** ** The heartbeat and the voice cycle *)

(** A world as a render left it, in its fields. *)
Ltac committed_world w C :=
  let a := fresh "a" in let v := fresh "v" in
  let sr := fresh "sr" in let pr := fresh "pr" in
  let hb := fresh "hb" in let si := fresh "si" in
  let rr := fresh "rr" in let sq := fresh "sq" in
  let tm := fresh "tm" in let pa := fresh "pa" in
  let nw := fresh "nw" in let cl := fresh "cl" in
  destruct w as [a v sr pr hb si rr sq tm pa nw cl];
  unfold commit, snapshot_of in C; cbn in C;
  injection C as ? ? ? ?; subst sr pr hb si;
  destruct v as [? ? ? ? ?]; cbn in *.

Lemma heartbeat_noop (w : World) (o : StartOutcome) :
  commit w = w ->
  voiceActive (voice w) = false \/ isListening (voice w) = true \/
  aiSpeaking (voice w) = true \/ isProcessing (voice w) = true ->
  step w (HeartbeatTick o) = w.
Proof.
  intros C B. committed_world w C.
  unfold step, handler, heartbeat, startListening. js_unfold. subst.
  unfold commit, snapshot_of.
  repeat match goal with b : bool |- _ => destruct b end; cbn in *;
    try reflexivity; exfalso; intuition discriminate.
Qed.

(** X5: the heartbeat never acts on a session that is switched off, is
    listening, is speaking or is processing: its tick leaves the world
    exactly as it was; and [startListening], whoever calls it, is
    without any effect while one of the three flags is up. *)
Theorem heartbeat_leaves_a_busy_session_alone (w : World) :
  commit w = w ->
  (voiceActive (voice w) = false \/ isListening (voice w) = true \/
   aiSpeaking (voice w) = true \/ isProcessing (voice w) = true ->
   forall o, step w (HeartbeatTick o) = w) /\
  (isListening (voice w) = true \/
   aiSpeaking (voice w) = true \/ isProcessing (voice w) = true ->
   forall o, startListening o w = (Normal tt, w)).
Proof.
  intros C. split.
  - intros B o. now apply heartbeat_noop.
  - intros B o. committed_world w C.
    unfold startListening. js_unfold. subst.
    repeat match goal with b : bool |- _ => destruct b end; cbn in *;
      try reflexivity; exfalso; intuition discriminate.
Qed.

Lemma heartbeat_leaves_a_busy_session_alone_witness :
  commit listeningWorld = listeningWorld /\
  isListening (voice listeningWorld) = true /\
  step listeningWorld (HeartbeatTick Started) = listeningWorld.
Proof.
  assert (C : commit listeningWorld = listeningWorld)
    by (vm_compute; reflexivity).
  assert (L : isListening (voice listeningWorld) = true)
    by (vm_compute; reflexivity).
  destruct (@heartbeat_leaves_a_busy_session_alone listeningWorld C)
    as [H _].
  split; [exact C|]. split; [exact L|].
  apply H. right. left. exact L.
Defined.


Lemma heartbeat_reopens (w : World) :
  commit w = w ->
  voiceActive (voice w) = true ->
  isListening (voice w) = false ->
  aiSpeaking (voice w) = false ->
  isProcessing (voice w) = false ->
  recognitionRef w = true ->
  step w (HeartbeatTick Started)
  = commit (with_voice (set_isListening true)
              (set_calls (calls w ++ [heartbeatLog; RecognitionStart]) w)).
Proof.
  intros C V L A P R.
  committed_world w C. subst. unfold step, handler, heartbeat, startListening.
  js_unfold. cbn. rewrite <- app_assoc. reflexivity.
Qed.

(** X6: with the voice feature on and the session idle, one heartbeat
    tick reopens capture with exactly one [recognition.start()]; the
    ticks that follow change nothing as long as the session listens. *)
Theorem heartbeat_restarts_capture_once (w : World) :
  commit w = w ->
  voiceActive (voice w) = true ->
  isListening (voice w) = false ->
  aiSpeaking (voice w) = false ->
  isProcessing (voice w) = false ->
  recognitionRef w = true ->
  let w1 := step w (HeartbeatTick Started) in
  isListening (voice w1) = true /\
  calls w1 = (calls w ++ [heartbeatLog; RecognitionStart])%list /\
  app w1 = app w /\ timeouts w1 = timeouts w /\
  forall o, step w1 (HeartbeatTick o) = w1.
Proof.
  intros C V L A P R.
  cbn zeta. rewrite (heartbeat_reopens C V L A P R). repeat split.
  intro o. apply heartbeat_noop; [reflexivity|]. right. left. reflexivity.
Qed.

Lemma heartbeat_restarts_capture_once_witness :
  (commit waitingWorld = waitingWorld /\
   voiceActive (voice waitingWorld) = true /\
   isListening (voice waitingWorld) = false) /\
  isListening (voice (step waitingWorld (HeartbeatTick Started))) = true.
Proof.
  assert (C : commit waitingWorld = waitingWorld)
    by (vm_compute; reflexivity).
  assert (V : voiceActive (voice waitingWorld) = true)
    by (vm_compute; reflexivity).
  assert (L : isListening (voice waitingWorld) = false)
    by (vm_compute; reflexivity).
  assert (A : aiSpeaking (voice waitingWorld) = false)
    by (vm_compute; reflexivity).
  assert (P : isProcessing (voice waitingWorld) = false)
    by (vm_compute; reflexivity).
  assert (R : recognitionRef waitingWorld = true)
    by (vm_compute; reflexivity).
  destruct (@heartbeat_restarts_capture_once waitingWorld C V L A P R)
    as (H & _).
  exact (conj (conj C (conj V L)) H).
Defined.


Lemma utterance_end_spec (w : World) :
  commit w = w ->
  let w' := step w UtteranceEnd in
  voice w' = set_aiSpeaking false (voice w) /\
  calls w' = calls w /\
  recognitionRef w' = recognitionRef w /\
  timeouts w' = (if voiceActive (voice w)
                 then timeouts w ++ [ResumeTimeout] else timeouts w)%list /\
  commit w' = w'.
Proof.
  intros C. committed_world w C. subst.
  unfold step, handler, resumeListening. js_unfold. cbn.
  match goal with |- context [if ?b then _ else _] => destruct b end;
    cbn; repeat split; reflexivity.
Qed.

Lemma resume_timeout_spec (w : World) :
  commit w = w ->
  In ResumeTimeout (timeouts w) ->
  recognitionRef w = true ->
  isListening (voice w) = false ->
  aiSpeaking (voice w) = false ->
  isProcessing (voice w) = false ->
  let w' := step w (TimeoutFires ResumeTimeout Started) in
  voice w' = set_isListening true (voice w) /\
  calls w' = (calls w ++ [RecognitionStart])%list.
Proof.
  intros C Hin R L A P. cbn zeta. unfold step. cbn [handler].
  destruct (take_timeout_In _ _ Hin) as [rest E].
  committed_world w C. subst.
  unfold timeout_callback, startListening. js_unfold. cbn. rewrite E. cbn.
  split; reflexivity.
Qed.

(** X7: one turn of speech: [speak] lowers [isListening] and raises
    [aiSpeaking]; 50 ms later the text reaches the synthesiser; when the
    utterance ends or fails [aiSpeaking] falls and, the voice feature
    being on, the 200 ms timeout is set; when it fires capture is
    reopened. With the feature off the session stays idle and no timeout
    is set. *)
Theorem speech_turn_returns_to_listening (w : World) (text : string)
    (o : StartOutcome) :
  recognitionRef w = true ->
  let w1 := commit (exec (speak text) w) in
  let w2 := step w1 (TimeoutFires (SpeakTimeout text) o) in
  let w3 := step w2 UtteranceEnd in
  let w4 := step w3 (TimeoutFires ResumeTimeout Started) in
  (isListening (voice w1) = false /\ aiSpeaking (voice w1) = true /\
   isProcessing (voice w1) = false) /\
  (calls w2 = (calls w1 ++ [SynthSpeak text])%list /\ voice w2 = voice w1) /\
  (isListening (voice w3) = false /\ aiSpeaking (voice w3) = false) /\
  (voiceActive (voice w) = true ->
   isListening (voice w4) = true /\ aiSpeaking (voice w4) = false /\
   isProcessing (voice w4) = false /\
   calls w4 = (calls w2 ++ [RecognitionStart])%list) /\
  (voiceActive (voice w) = false ->
   timeouts w3 = timeouts w2 /\ calls w3 = calls w2).
Proof.
  intros R. cbn zeta.
  pose proof (speak_spec text w) as S. cbn zeta in S.
  set (w0 := exec (speak text) w) in *.
  destruct S as (_ & _ & Sv & St & _ & _ & _ & _ & Sr & _).
  clearbody w0.
  set (w1 := commit w0).
  assert (V1 : voice w1 = set_isProcessing false (set_aiSpeaking true
                 (set_isListening false (voice w)))) by exact Sv.
  assert (In1 : In (SpeakTimeout text) (timeouts w1)).
  { subst w1. cbn [timeouts commit]. rewrite St.
    apply in_or_app. right. now left. }
  pose proof (speak_timeout_fires text o w1 In1) as F. cbn zeta in F.
  set (w2 := step w1 (TimeoutFires (SpeakTimeout text) o)).
  assert (C2 : calls w2 = (calls w1 ++ [SynthSpeak text])%list)
    by (destruct F as (F & _); exact F).
  assert (V2 : voice w2 = voice w1) by (destruct F as (_ & _ & F & _); exact F).
  assert (R2 : recognitionRef w2 = true).
  { subst w2. unfold step. cbn [recognitionRef commit handler].
    unfold exec, bind, gets, modify.
    destruct (take_timeout_In _ _ In1) as [rest ->].
    cbn. subst w1. cbn. now rewrite Sr. }
  assert (K2 : commit w2 = w2) by reflexivity.
  clear F. clearbody w2.
  pose proof (@utterance_end_spec w2 K2) as U. cbn zeta in U.
  set (w3 := step w2 UtteranceEnd) in *.
  destruct U as (V3 & C3 & R3 & T3 & K3). clearbody w3.
  assert (VA : voiceActive (voice w2) = voiceActive (voice w))
    by (rewrite V2, V1; reflexivity).
  rewrite VA in T3.
  split; [rewrite V1; repeat split|].
  split; [split; assumption|].
  split; [rewrite V3, V2, V1; split; reflexivity|].
  split.
  - intros VT. rewrite VT in T3.
    assert (In3 : In ResumeTimeout (timeouts w3))
      by (rewrite T3; apply in_or_app; right; now left).
    destruct (@resume_timeout_spec w3 K3 In3) as (V4 & C4);
      try (rewrite ?R3, ?V3, ?V2, ?V1; auto; fail).
    rewrite V4, C4, C3, V3, V2, V1. repeat split.
  - intros VF. rewrite VF in T3. split; assumption.
Qed.

Lemma speech_turn_returns_to_listening_witness :
  let w := initialWorld true 0 in
  let w1 := commit (exec (speak "Foto recibida.") w) in
  recognitionRef w = true /\
  isListening (voice w1) = false /\ aiSpeaking (voice w1) = true.
Proof.
  cbn zeta.
  assert (R : recognitionRef (initialWorld true 0) = true) by reflexivity.
  destruct (@speech_turn_returns_to_listening (initialWorld true 0)
              "Foto recibida." Started R) as ((L & A & _) & _).
  exact (conj R (conj L A)).
Defined.


(** X8: the session heals itself: when capture ends, or fails with
    anything but "no-speech", [isListening] falls, and with the voice
    feature on and nothing spoken or processed the next heartbeat tick
    reopens capture; a "no-speech" error changes nothing. *)
Theorem capture_loss_is_healed_by_the_heartbeat (w : World) :
  commit w = w ->
  voiceActive (voice w) = true ->
  aiSpeaking (voice w) = false ->
  isProcessing (voice w) = false ->
  recognitionRef w = true ->
  (forall e,
     e = RecognitionEnded \/
     (exists code, e = RecognitionError code /\ code <> "no-speech") ->
     isListening (voice (step w e)) = false /\
     isListening (voice (step (step w e) (HeartbeatTick Started))) = true /\
     calls (step (step w e) (HeartbeatTick Started))
     = (calls w ++ [heartbeatLog; RecognitionStart])%list) /\
  step w (RecognitionError "no-speech") = w.
Proof.
  intros C V A P R. split.
  - intros e He.
    assert (E : step w e = commit (with_voice (set_isListening false) w)).
    { destruct He as [->|(code & -> & Hc)]; [reflexivity|].
      unfold step, handler, recognition_onerror.
      apply String.eqb_neq in Hc. rewrite Hc. reflexivity. }
    rewrite E. split; [reflexivity|].
    rewrite heartbeat_reopens; try reflexivity; try assumption.
    split; reflexivity.
  - unfold step, handler, recognition_onerror. cbn. exact C.
Qed.

Lemma capture_loss_is_healed_by_the_heartbeat_witness :
  (commit listeningWorld = listeningWorld /\
   voiceActive (voice listeningWorld) = true) /\
  isListening (voice (step listeningWorld RecognitionEnded)) = false /\
  isListening
    (voice (step (step listeningWorld RecognitionEnded)
              (HeartbeatTick Started))) = true.
Proof.
  assert (C : commit listeningWorld = listeningWorld)
    by (vm_compute; reflexivity).
  assert (V : voiceActive (voice listeningWorld) = true)
    by (vm_compute; reflexivity).
  assert (A : aiSpeaking (voice listeningWorld) = false)
    by (vm_compute; reflexivity).
  assert (P : isProcessing (voice listeningWorld) = false)
    by (vm_compute; reflexivity).
  assert (R : recognitionRef listeningWorld = true)
    by (vm_compute; reflexivity).
  destruct (@capture_loss_is_healed_by_the_heartbeat listeningWorld
              C V A P R) as (H & _).
  destruct (H RecognitionEnded (or_introl eq_refl)) as (H1 & H2 & _).
  exact (conj (conj C V) (conj H1 H2)).
Defined.


Lemma all_white_space_no_non_space (l : list N) :
  forallb white_space l = true ->
  existsb (fun cp => negb (white_space cp)) l = false.
Proof.
  induction l as [|cp l IH]; cbn; [reflexivity|].
  intros H. apply andb_true_iff in H as [H1 H2].
  now rewrite H1, IH.
Qed.

(** X9: a transcript all of whose code points are white space, as
    [trim] knows it (the no-break space, the byte order mark and the
    Unicode spaces and line separators included), is dropped without a
    trace; a transcript with any other code point is shown, marks the
    session as processing and sends exactly one request to the intent
    service, together with the snapshot [stateRef] holds at that moment;
    the application state is not touched.  Every transcript is of one
    of the two kinds. *)
Theorem transcripts_are_filtered_and_snapshotted (w : World)
    (result : string) :
  (forallb white_space (code_points result) = true ->
   recognition_onresult result w = (Normal tt, w)) /\
  (existsb (fun cp => negb (white_space cp)) (code_points result) = true ->
   let w' := exec (recognition_onresult result) w in
   transcript (voice w') = result /\
   isProcessing (voice w') = true /\
   isListening (voice w') = isListening (voice w) /\
   aiSpeaking (voice w') = aiSpeaking (voice w) /\
   pendingAi w' = (pendingAi w ++ [(result, stateRef w)])%list /\
   calls w' = (calls w ++ [GenerateContent result])%list /\
   app w' = app w /\ timeouts w' = timeouts w) /\
  (forallb white_space (code_points result) = true \/
   existsb (fun cp => negb (white_space cp)) (code_points result) = true) /\
  code_points blankTranscript = [32; 160; 65279; 8232; 12288; 9]%N /\
  recognition_onresult blankTranscript w = (Normal tt, w) /\
  code_points "Sí, llévame" = [83; 237; 44; 32; 108; 108; 233; 118; 97;
                               109; 101]%N.
Proof.
  split; [|split; [|split]].
  - intros H. unfold recognition_onresult, has_non_space.
    now rewrite (all_white_space_no_non_space _ H).
  - intros H. cbn zeta. unfold recognition_onresult, has_non_space.
    rewrite H.
    unfold processVoiceCommand, getGeminiResponse_send. js_unfold. cbn.
    repeat split.
  - induction (code_points result) as [|cp l [IH|IH]]; cbn.
    + now left.
    + destruct (white_space cp); cbn; [now left | now right].
    + right. rewrite IH. apply orb_true_r.
  - repeat split; vm_compute; reflexivity.
Qed.

(** ** More of the action dispatch *)







(** X11: the three intents that read [data.value] as a string fail when
    the reply carries no value: the [TypeError] is caught like a failed
    call. Nothing is written, nothing is spoken and no timeout is set;
    the processing flag is cleared. *)
Theorem missing_value_is_a_silent_failure (c : ascii) (rest : string)
    (a : ActionKind) (sp : option string) (o : StartOutcome) (w : World)
    (text : string) (cs : Snapshot) (others : list (string * Snapshot)) :
  a = SET_PASSENGER_PHONE \/ a = SET_DRIVER_PHONE \/ a = SET_DRIVER_PLATE ->
  pendingAi w = (text, cs) :: others ->
  let w' := exec (processVoiceCommand_resume (intent c rest a sp None) o) w in
  app w' = app w /\
  timeouts w' = timeouts w /\
  synthQueue w' = synthQueue w /\
  isProcessing (voice w') = false /\
  aiSpeaking (voice w') = aiSpeaking (voice w) /\
  exists l,
    calls w' = (calls w ++ ConsoleLog "AI Action:" :: ConsoleError :: l)%list /\
    (l = [] \/ l = [RecognitionStart]).
Proof.
  intros Ha Hp. cbn zeta.
  set (w1 := with_voice (set_isProcessing false)
               (set_calls (calls w ++ [ConsoleLog "AI Action:"; ConsoleError])
                  (set_pendingAi others w))).
  assert (E : exec (processVoiceCommand_resume (intent c rest a sp None) o) w
              = if snap_voiceActive (stateRef w)
                then exec (startListening o) w1 else w1).
  { subst w1. unfold processVoiceCommand_resume.
    unfold exec, bind at 1, gets at 1. rewrite Hp.
    unfold intent, getGeminiResponse_resume.
    destruct Ha as [->|[->| ->]]; js_unfold; cbn;
      rewrite <- !app_assoc; cbn;
      destruct (snap_voiceActive (stateRef w)); reflexivity. }
  rewrite E.
  assert (F : (if snap_voiceActive (stateRef w)
               then exec (startListening o) w1 else w1) = w1 \/
              (if snap_voiceActive (stateRef w)
               then exec (startListening o) w1 else w1)
              = set_calls (calls w1 ++ [RecognitionStart]) w1 \/
              (if snap_voiceActive (stateRef w)
               then exec (startListening o) w1 else w1)
              = with_voice (set_isListening true)
                     (set_calls (calls w1 ++ [RecognitionStart]) w1)).
  { destruct (snap_voiceActive (stateRef w)); [|now left].
    destruct (startListening_cases o w1) as [H|(_ & _ & _ & _ & H)];
      [now left|].
    destruct H as [(e & _ & H)|(_ & H)]; auto. }
  destruct F as [->|[->| ->]]; subst w1; cbn;
    (repeat split; try reflexivity);
    eexists; (split; [rewrite <- ?app_assoc; cbn; reflexivity|]); auto.
Qed.

Lemma missing_value_is_a_silent_failure_witness :
  let w := processingWorld in
  pendingAi w = [("Llevame al parque", stateRef listeningWorld)] /\
  app (exec (processVoiceCommand_resume
               (intent "{" "}" SET_DRIVER_PLATE (Some "Listo.") None)
               Started) w) = app w.
Proof.
  cbn zeta.
  assert (P : pendingAi processingWorld
              = [("Llevame al parque", stateRef listeningWorld)])
    by (vm_compute; reflexivity).
  destruct (@missing_value_is_a_silent_failure "{" "}" SET_DRIVER_PLATE
              (Some "Listo.") Started processingWorld "Llevame al parque"
              (stateRef listeningWorld) []
              (or_intror (or_intror eq_refl)) P) as (A & _).
  exact (conj P A).
Defined.


(** X12: the intents of the registration: NAVIGATE_PASSENGER_REG and
    NAVIGATE_DRIVER_REG set the role and open its form from any view; a
    name intent heard on the home view does the same and writes the
    name, heard on its own form it writes the name only. No other field
    of either profile changes. *)
Theorem registration_intents (c : ascii) (rest : string)
    (sp v : option string) (cs : Snapshot) (o : StartOutcome) (w : World) :
  (let w' := dispatch c rest NAVIGATE_PASSENGER_REG sp v cs o w in
   userType (app w') = Some passenger /\
   currentView (app w') = passenger_register /\
   passengerProfile (app w') = passengerProfile (app w) /\
   driverProfile (app w') = driverProfile (app w)) /\
  (let w' := dispatch c rest NAVIGATE_DRIVER_REG sp v cs o w in
   userType (app w') = Some driver /\
   currentView (app w') = driver_register /\
   passengerProfile (app w') = passengerProfile (app w) /\
   driverProfile (app w') = driverProfile (app w)) /\
  (let w' := dispatch c rest SET_PASSENGER_NAME sp v cs o w in
   (snap_currentView cs = home ->
    userType (app w') = Some passenger /\
    currentView (app w') = passenger_register) /\
   (snap_currentView cs = passenger_register ->
    userType (app w') = userType (app w) /\
    currentView (app w') = currentView (app w)) /\
   (snap_currentView cs = home \/ snap_currentView cs = passenger_register ->
    passengerProfile (app w')
    = with_passenger_name v (passengerProfile (app w)) /\
    driverProfile (app w') = driverProfile (app w))) /\
  (let w' := dispatch c rest SET_DRIVER_NAME sp v cs o w in
   (snap_currentView cs = home ->
    userType (app w') = Some driver /\
    currentView (app w') = driver_register) /\
   (snap_currentView cs = driver_register ->
    userType (app w') = userType (app w) /\
    currentView (app w') = currentView (app w)) /\
   (snap_currentView cs = home \/ snap_currentView cs = driver_register ->
    driverProfile (app w') = with_driver_name v (driverProfile (app w)) /\
    passengerProfile (app w') = passengerProfile (app w))).
Proof.
  unfold dispatch, intent, getGeminiResponse_resume.
  cbn -[speak View_eqb].
  assert (V : forall x y, snap_currentView cs = x \/ snap_currentView cs = y ->
              View_eqb x y = false ->
              View_eqb (snap_currentView cs) x
              || View_eqb (snap_currentView cs) y = true).
  { intros x y [-> | ->] N.
    - now rewrite (proj2 (View_eqb_eq x x) eq_refl).
    - rewrite (proj2 (View_eqb_eq y y) eq_refl). apply orb_true_r. }
  repeat split; try intros H;
    try (rewrite H; js_unfold; cbn; js_cases w; reflexivity);
    try (js_unfold; cbn; js_cases w; reflexivity).
  - rewrite (V passenger_register home) by (tauto || reflexivity).
    destruct H as [-> | ->]; js_unfold; cbn; js_cases w; reflexivity.
  - rewrite (V passenger_register home) by (tauto || reflexivity).
    destruct H as [-> | ->]; js_unfold; cbn; js_cases w; reflexivity.
  - rewrite (V driver_register home) by (tauto || reflexivity).
    destruct H as [-> | ->]; js_unfold; cbn; js_cases w; reflexivity.
  - rewrite (V driver_register home) by (tauto || reflexivity).
    destruct H as [-> | ->]; js_unfold; cbn; js_cases w; reflexivity.
Qed.

Lemma replace_all_idempotent (cls : ascii -> bool) (s : string) :
  replace_all cls (replace_all cls s) = replace_all cls s.
Proof.
  induction s as [|c rest IH]; cbn; [reflexivity|].
  destruct (cls c) eqn:E; cbn; [exact IH|]. now rewrite E, IH.
Qed.

Lemma toUpperCase_char_idempotent (c : ascii) :
  toUpperCase_char (toUpperCase_char c) = toUpperCase_char c.
Proof.
  destruct c as [[] [] [] [] [] [] [] []]; vm_compute; reflexivity.
Qed.

Lemma toUpperCase_char_non_alnum (c : ascii) :
  non_alnum (toUpperCase_char c) = non_alnum c.
Proof.
  destruct c as [[] [] [] [] [] [] [] []]; vm_compute; reflexivity.
Qed.

Lemma replace_all_toUpperCase (s : string) :
  replace_all non_alnum (toUpperCase s)
  = toUpperCase (replace_all non_alnum s).
Proof.
  induction s as [|c rest IH]; cbn; [reflexivity|].
  rewrite toUpperCase_char_non_alnum, IH.
  destruct (non_alnum c); reflexivity.
Qed.

Lemma toUpperCase_idempotent (s : string) :
  toUpperCase (toUpperCase s) = toUpperCase s.
Proof.
  induction s as [|c rest IH]; cbn; [reflexivity|].
  now rewrite toUpperCase_char_idempotent, IH.
Qed.

Lemma replace_all_length (cls : ascii -> bool) (s : string) :
  (String.length (replace_all cls s) <= String.length s)%nat.
Proof.
  induction s as [|c rest IH]; cbn; [lia|].
  destruct (cls c); cbn; lia.
Qed.

(** X13: the sanitised fields are fixed points: dictating the stored
    phone number or the stored plate again stores the same text, and the
    stored text is never longer than what was dictated. *)
Theorem sanitised_fields_are_stable (c : ascii) (rest : string)
    (sp : option string) (v : string) (cs : Snapshot) (o : StartOutcome)
    (w w2 : World) :
  let phone := passenger_phone (passengerProfile (app
                 (dispatch c rest SET_PASSENGER_PHONE sp (Some v) cs o w))) in
  let plate := driver_plate (driverProfile (app
                 (dispatch c rest SET_DRIVER_PLATE sp (Some v) cs o w))) in
  passenger_phone (passengerProfile (app
    (dispatch c rest SET_PASSENGER_PHONE sp (Some phone) cs o w2))) = phone /\
  driver_phone (driverProfile (app
    (dispatch c rest SET_DRIVER_PHONE sp (Some phone) cs o w2))) = phone /\
  driver_plate (driverProfile (app
    (dispatch c rest SET_DRIVER_PLATE sp (Some plate) cs o w2))) = plate /\
  (String.length phone <= String.length v)%nat /\
  (String.length plate <= String.length v)%nat.
Proof.
  assert (Hp : forall v w,
    passenger_phone (passengerProfile (app
      (dispatch c rest SET_PASSENGER_PHONE sp (Some v) cs o w)))
    = replace_all non_digit v).
  { intros. unfold dispatch, intent, getGeminiResponse_resume. cbn.
    js_unfold. cbn. js_cases w0; reflexivity. }
  assert (Hd : forall v w,
    driver_phone (driverProfile (app
      (dispatch c rest SET_DRIVER_PHONE sp (Some v) cs o w)))
    = replace_all non_digit v).
  { intros. unfold dispatch, intent, getGeminiResponse_resume. cbn.
    js_unfold. cbn. js_cases w0; reflexivity. }
  assert (Hl : forall v w,
    driver_plate (driverProfile (app
      (dispatch c rest SET_DRIVER_PLATE sp (Some v) cs o w)))
    = toUpperCase (replace_all non_alnum v)).
  { intros. unfold dispatch, intent, getGeminiResponse_resume. cbn.
    js_unfold. cbn. js_cases w0; reflexivity. }
  cbn zeta. rewrite !Hp, !Hd, !Hl.
  rewrite replace_all_idempotent, replace_all_toUpperCase,
    replace_all_idempotent, toUpperCase_idempotent.
  repeat split; try apply replace_all_length.
  assert (L : forall s, String.length (toUpperCase s) = String.length s)
    by (induction s as [|? ? IH]; cbn; [reflexivity | now rewrite IH]).
  rewrite L. apply replace_all_length.
Qed.

(** ** Requesting a trip *)

(** X14: [requestTrip] refuses while [stateRef] holds no pickup latitude
    or no destination latitude: it speaks its hint and creates nothing.
    Otherwise it creates the trip from the request, in the searching
    state and without a driver, opens the searching view and sets the
    4000 ms timeout, without speaking. When that timeout fires on the
    trip, the trip is accepted, the driver stands 0.005 south and west
    of the pickup point, the trip view opens and the arrival of the
    driver is announced. *)
Theorem request_and_acceptance (w : World) :
  let ref := snap_tripRequest (stateRef w) in
  (truthy_opt (pickupLat ref) = false \/
   truthy_opt (destinationLat ref) = false ->
   let w' := exec requestTrip w in
   app w' = app w /\
   timeouts w'
   = (timeouts w ++ [SpeakTimeout "Primero necesito saber a dónde vas."])%list) /\
  (truthy_opt (pickupLat ref) = true ->
   truthy_opt (destinationLat ref) = true ->
   let w' := exec requestTrip w in
   activeTrip (app w') = Some (newTrip w) /\
   trip_status (newTrip w) = status_searching /\
   driverLat (newTrip w) = None /\
   Some (trip_pickupLat (newTrip w)) = pickupLat ref /\
   Some (trip_destinationLat (newTrip w)) = destinationLat ref /\
   currentView (app w') = searching /\
   tripRequest (app w') = tripRequest (app w) /\
   timeouts w' = (timeouts w ++ [TripAcceptedTimeout])%list /\
   voice w' = voice w /\
   let w'' := exec trip_accepted_timeout w' in
   activeTrip (app w'') = Some (accept_trip (newTrip w)) /\
   trip_status (accept_trip (newTrip w)) = status_accepted /\
   driverLat (accept_trip (newTrip w))
   = Some (trip_pickupLat (newTrip w) - 0.005) /\
   driverLng (accept_trip (newTrip w))
   = Some (trip_pickupLng (newTrip w) - 0.005) /\
   currentView (app w'') = trip_active /\
   aiSpeaking (voice w'') = true /\
   In (SpeakTimeout "¡Conductor encontrado! Juan viene en camino.")
      (timeouts w'')).
Proof.
  cbn zeta. split.
  - intros H.
    assert (E : exec requestTrip w
                = exec (speak "Primero necesito saber a dónde vas.") w).
    { unfold requestTrip, exec, bind at 1, gets at 1.
      destruct H as [-> | ->]; cbn [negb orb]; [reflexivity|].
      now rewrite orb_true_r. }
    rewrite E.
    pose proof (speak_spec "Primero necesito saber a dónde vas." w) as S.
    cbn zeta in S. destruct S as (_ & Sa & _ & St & _). now split.
  - intros Hp Hd.
    assert (E : exec requestTrip w
      = set_timeouts (timeouts w ++ [TripAcceptedTimeout])
          (with_app (set_currentView searching)
             (with_app (set_activeTrip (Some (newTrip w))) w))).
    { unfold requestTrip. js_unfold. cbn -[newTrip].
      rewrite Hp, Hd. reflexivity. }
    rewrite E.
    assert (P : Some (trip_pickupLat (newTrip w))
                = pickupLat (snap_tripRequest (stateRef w))).
    { cbn. destruct (pickupLat _); [reflexivity | discriminate Hp]. }
    assert (D : Some (trip_destinationLat (newTrip w))
                = destinationLat (snap_tripRequest (stateRef w))).
    { cbn. destruct (destinationLat _); [reflexivity | discriminate Hd]. }
    repeat split; try assumption;
      unfold trip_accepted_timeout; js_unfold; cbn -[newTrip accept_trip];
      destruct (synthQueue w); cbn -[newTrip accept_trip];
      destruct (recognitionRef w); cbn -[newTrip accept_trip];
      try reflexivity; apply in_or_app; right; now left.
Qed.

(** ** The back button and the registration form *)

(** X15: the back button, view by view: on the home view and on the trip
    view it does nothing at all, on every other view it changes the
    view. From a registration view or a dashboard it leads home and
    forgets the role, and the driver leaving the dashboard goes offline;
    from the search it leads to the passenger dashboard and drops the
    trip, while the 4000 ms timeout of the request stays pending. It
    never touches a profile. *)
Theorem back_button_by_view (w : World) :
  rendered w ->
  let w' := exec goBack w in
  let view := currentView (app w) in
  (w' = w <-> view = home \/ view = trip_active) /\
  (view = passenger_register \/ view = driver_register \/
   view = passenger_dashboard \/ view = driver_dashboard ->
   currentView (app w') = home /\ userType (app w') = None /\
   activeTrip (app w') = activeTrip (app w) /\
   tripRequest (app w') = tripRequest (app w) /\
   voice w' = voice w /\ timeouts w' = timeouts w) /\
  (view = driver_dashboard -> driverStatus (app w') = offline) /\
  (view <> driver_dashboard -> driverStatus (app w') = driverStatus (app w)) /\
  (view = searching ->
   currentView (app w') = passenger_dashboard /\
   activeTrip (app w') = None /\
   userType (app w') = userType (app w) /\
   tripRequest (app w') = tripRequest (app w) /\
   voice w' = voice w /\ timeouts w' = timeouts w) /\
  driverProfile (app w') = driverProfile (app w) /\
  passengerProfile (app w') = passengerProfile (app w).
Proof.
  intros [Rs _]. cbn zeta.
  destruct w as [a v sr pr hb si rr sq tm pa nw cl].
  unfold snapshot_of in Rs. cbn in Rs. subst sr.
  destruct a as [ut cv ds tr at_ ul fl dp pp rq]. cbn [app currentView].
  unfold goBack, submitRating. js_unfold.
  destruct cv, sq, rr; cbn;
    (split; [split; [intros E; try (injection E; intros; discriminate); auto
                    |intros [E|E]; try discriminate E; reflexivity]|]);
    (split; [intros H; try (repeat destruct H as [H|H]; discriminate H);
             repeat split|]);
    (split; [intros H; try discriminate H; reflexivity|]);
    (split; [intros H; try (now elim H); reflexivity|]);
    (split; [intros H; try discriminate H; repeat split|]);
    split; reflexivity.
Qed.

Lemma back_button_by_view_witness :
  rendered driverRegisterWorld /\
  currentView (app driverRegisterWorld) = driver_register /\
  currentView (app (exec goBack driverRegisterWorld)) = home /\
  userType (app (exec goBack driverRegisterWorld)) = None.
Proof.
  assert (R : rendered driverRegisterWorld) by (split; reflexivity).
  assert (V : currentView (app driverRegisterWorld) = driver_register)
    by reflexivity.
  destruct (@back_button_by_view driverRegisterWorld R) as (_ & H & _).
  destruct (H (or_intror (or_introl V))) as (H1 & H2 & _).
  exact (conj R (conj V (conj H1 H2))).
Defined.


(** X16: typing a name and pressing "Continuar": on a registration view
    a name that is not empty is stored in the profile of that view and
    opens the dashboard of that view; an empty name is stored as well
    but the view stays, and the hint is spoken instead. *)
Theorem typed_name_opens_the_dashboard
    (cd : number -> number -> number -> number -> number)
    (cp : number -> number) (w : World) (typed : string) :
  let w' := ui_run cd cp w [NameTyped typed; Core ContinueButton] in
  (currentView (app w) = driver_register ->
   driver_name (driverProfile (app w')) = Some typed /\
   passengerProfile (app w') = passengerProfile (app w) /\
   (typed <> "" ->
    currentView (app w') = driver_dashboard /\ voice w' = voice w) /\
   (typed = "" ->
    currentView (app w') = driver_register /\
    In (SpeakTimeout "Por favor di tu nombre primero.") (timeouts w'))) /\
  (currentView (app w) = passenger_register ->
   passenger_name (passengerProfile (app w')) = Some typed /\
   driverProfile (app w') = driverProfile (app w) /\
   (typed <> "" ->
    currentView (app w') = passenger_dashboard /\ voice w' = voice w) /\
   (typed = "" ->
    currentView (app w') = passenger_register /\
    In (SpeakTimeout "Por favor di tu nombre primero.") (timeouts w'))).
Proof.
  cbn zeta.
  destruct w as [a v sr pr hb si rr sq tm pa nw cl].
  destruct a as [ut cv ds tr at_ ul fl dp pp rq].
  unfold ui_run, ui_step. cbn [fold_left ui_handler handler app currentView].
  unfold name_change, continue_click. js_unfold.
  destruct typed as [|c rest], sq, rr;
    (split; intros ->; cbn;
     (split; [reflexivity|]); (split; [reflexivity|]);
     (split; intros H; try discriminate H; try (now elim H);
      (split; [reflexivity|]); try reflexivity;
      apply in_or_app; right; now left)).
Qed.

(** ** Geolocation and destination *)

(** X17: the location lookup and its failure. The lookup raises the
    fetching flag and nothing else. A located position becomes the
    pickup point of the request, with its address, and the user
    location, whose accuracy is set to 10 whatever the service reported;
    the destination of the request is kept and nothing is spoken. A
    failed lookup leaves the request and the user location as they were
    and speaks the GPS hint. In both cases the fetching flag is lowered. *)
Theorem location_lookup_outcomes (w : World) :
  (let w' := exec handleGetCurrentLocation_begin w in
   w' = with_app (set_isFetchingLocation true) w) /\
  (forall location address,
     let w' := exec (handleGetCurrentLocation_resume
                       (Some (location, address))) w in
     let req := tripRequest (app w') in
     pickupLat req = Some (lat location) /\
     pickupLng req = Some (lng location) /\
     pickupAddress req = address /\
     destinationLat req = destinationLat (tripRequest (app w)) /\
     destinationLng req = destinationLng (tripRequest (app w)) /\
     destinationAddress req = destinationAddress (tripRequest (app w)) /\
     distance req = distance (tripRequest (app w)) /\
     price req = price (tripRequest (app w)) /\
     userLocation (app w')
     = Some {| lat := lat location; lng := lng location; accuracy := 10 |} /\
     isFetchingLocation (app w') = false /\
     voice w' = voice w /\ timeouts w' = timeouts w /\ calls w' = calls w) /\
  (let w' := exec (handleGetCurrentLocation_resume None) w in
   tripRequest (app w') = tripRequest (app w) /\
   userLocation (app w') = userLocation (app w) /\
   isFetchingLocation (app w') = false /\
   aiSpeaking (voice w') = true /\
   timeouts w'
   = (timeouts w
      ++ [SpeakTimeout "No pude obtener tu ubicación. Verifica el GPS."])%list).
Proof.
  split; [reflexivity|]. split.
  - intros location address. cbn zeta.
    unfold handleGetCurrentLocation_resume, updateTripRequest,
      setUserLocation, setIsFetchingLocation. js_unfold. cbn.
    repeat split.
  - cbn zeta.
    unfold handleGetCurrentLocation_resume, setIsFetchingLocation.
    js_unfold. cbn. destruct (synthQueue w); cbn;
      destruct (recognitionRef w); cbn; repeat split.
Qed.

Lemma coordinate_or_truthy (y d : number) :
  y <> 0 -> coordinate_or (Some y) d = y.
Proof.
  intros H. unfold coordinate_or. now rewrite (truthy_nonzero H).
Qed.





(** ** The voice indicator *)

(** X19: what the voice indicator shows. With the feature off it is the
    microphone button. With the feature on, the bubble holds the
    bouncing dots exactly while the assistant speaks, whatever the
    transcript; otherwise it holds the transcript when there is one and
    is absent when there is none, so the placeholder "Escuchando..." of
    the source is never what the bubble shows for an empty transcript.
    The orb pulses exactly while listening, is emerald while listening,
    violet while processing without listening, blue otherwise, and
    carries the spinner exactly while processing. *)
Theorem voice_indicator_table (v : VoiceState) :
  (voiceActive v = false -> renderVoiceIndicator v = MicButton) /\
  (voiceActive v = true ->
   exists bubble colour,
     renderVoiceIndicator v
     = Orb bubble (isListening v) colour (isProcessing v) /\
     (bubble = BouncingDots <-> aiSpeaking v = true) /\
     (bubble = NoBubble <-> aiSpeaking v = false /\ transcript v = "") /\
     (forall text,
        bubble = BubbleText text <->
        aiSpeaking v = false /\ transcript v <> "" /\ text = transcript v) /\
     (colour = emerald <-> isListening v = true) /\
     (colour = violet <-> isListening v = false /\ isProcessing v = true) /\
     (colour = blue <-> isListening v = false /\ isProcessing v = false)).
Proof.
  unfold renderVoiceIndicator. split; intros ->; [reflexivity|]. cbn [negb].
  do 2 eexists. split; [reflexivity|].
  destruct (String.eqb_spec (transcript v) "") as [E|E];
    destruct (aiSpeaking v), (isListening v), (isProcessing v); cbn;
    repeat split; try discriminate; try tauto; try congruence;
    try (intros [? ?]; congruence); try (intros (? & ? & ?); congruence);
    try (intros H; injection H; intros; subst; auto; congruence).
Qed.

(** ** More of the position simulation *)

Lemma sqrt2_bounds : 1.4 < sqrt 2 < 1.5.
Proof.
  split.
  - rewrite <- (sqrt_square 1.4) by lra. apply sqrt_lt_1_alt. lra.
  - rewrite <- (sqrt_square 1.5) at 1 by lra. apply sqrt_lt_1_alt. lra.
Qed.

Lemma norm_diagonal (c : R) : 0 <= c -> norm c c = c * sqrt 2.
Proof.
  intros H. unfold norm.
  replace (c * c + c * c) with (c * c * 2) by ring.
  rewrite sqrt_mult by nra. now rewrite sqrt_square.
Qed.

Lemma Rabs_le_norm (x y : R) : Rabs x <= norm x y /\ Rabs y <= norm x y.
Proof.
  unfold norm. split.
  - rewrite <- sqrt_Rsqr_abs. apply sqrt_le_1_alt. unfold Rsqr. nra.
  - rewrite <- sqrt_Rsqr_abs. apply sqrt_le_1_alt. unfold Rsqr. nra.
Qed.

Lemma with_driver_position_self (t : Trip) (a b : R) :
  driverLat t = Some a -> driverLng t = Some b ->
  with_driver_position a b t = t.
Proof.
  destruct t. cbn. intros -> ->. reflexivity.
Qed.

Lemma with_driver_position_eq (t : Trip) (a a' b b' : R) :
  a = a' -> b = b' ->
  with_driver_position a b t = with_driver_position a' b' t.
Proof. intros -> ->. reflexivity. Qed.

Lemma distance_on_diagonal (t : Trip) (c : R) :
  0 <= c -> distance_to_target (on_diagonal t c) = c * sqrt 2.
Proof.
  intros H. unfold distance_to_target, on_diagonal. cbn.
  replace (trip_pickupLng t - (trip_pickupLng t - c)) with c by ring.
  replace (trip_pickupLat t - (trip_pickupLat t - c)) with c by ring.
  now apply norm_diagonal.
Qed.

(** One tick on the diagonal, away from the target. *)
Lemma tick_on_diagonal (t : Trip) (c : R) :
  trip_pickupLat t - c <> 0 -> trip_pickupLng t - c <> 0 ->
  0.0005 <= c * sqrt 2 ->
  simulate (Some (on_diagonal t c))
  = Some (on_diagonal t (c - 0.0005 / sqrt 2)).
Proof.
  intros Ha Hb Hc. pose proof sqrt2_bounds as Q.
  assert (C0 : 0 < c) by nra.
  unfold simulate, on_diagonal.
  cbn [driverLat driverLng with_driver_position truthy_opt to_number
       trip_pickupLat trip_pickupLng].
  rewrite (truthy_nonzero Ha), (truthy_nonzero Hb). cbn [negb orb].
  replace (trip_pickupLng t - (trip_pickupLng t - c)) with c by ring.
  replace (trip_pickupLat t - (trip_pickupLat t - c)) with c by ring.
  fold (norm c c). rewrite norm_diagonal by lra.
  destruct (Rlt_dec (c * sqrt 2) 0.0005) as [N|_]; [lra|].
  assert (D : 0 < norm c c) by (rewrite norm_diagonal by lra; nra).
  destruct (atan2_direction c c D) as [Cs Sn].
  rewrite Cs, Sn, norm_diagonal by lra. f_equal.
  unfold with_driver_position. cbn.
  f_equal; f_equal; unfold number; field; lra.
Qed.

(** One tick on the diagonal, close to the target. *)
Lemma snap_on_diagonal (t : Trip) (c : R) :
  trip_pickupLat t - c <> 0 -> trip_pickupLng t - c <> 0 ->
  0 <= c -> c * sqrt 2 < 0.0005 ->
  simulate (Some (on_diagonal t c)) = Some (on_diagonal t 0).
Proof.
  intros Ha Hb C0 Hc.
  unfold simulate, on_diagonal.
  cbn [driverLat driverLng with_driver_position truthy_opt to_number
       trip_pickupLat trip_pickupLng].
  rewrite (truthy_nonzero Ha), (truthy_nonzero Hb). cbn [negb orb].
  replace (trip_pickupLng t - (trip_pickupLng t - c)) with c by ring.
  replace (trip_pickupLat t - (trip_pickupLat t - c)) with c by ring.
  fold (norm c c). rewrite norm_diagonal by lra.
  destruct (Rlt_dec (c * sqrt 2) 0.0005) as [_|N]; [|lra].
  f_equal. unfold with_driver_position. cbn. f_equal; f_equal; lra.
Qed.

(** X20: the driver of an accepted trip arrives with the fifteenth tick.
    The pickup point is taken off the strips of latitude and longitude
    between 0 and 0.005, so that the driver never stands on a zero
    coordinate. After [n <= 14] ticks the driver is [n] steps of 0.0005
    closer than the initial distance 0.005 * sqrt 2; from the fifteenth
    tick on the driver stands on the pickup point. *)
Theorem driver_arrives_with_the_fifteenth_tick (t : Trip) :
  driverLat t = Some (trip_pickupLat t - 0.005) ->
  driverLng t = Some (trip_pickupLng t - 0.005) ->
  trip_pickupLat t < 0 \/ 0.005 < trip_pickupLat t ->
  trip_pickupLng t < 0 \/ 0.005 < trip_pickupLng t ->
  (forall n, (n <= 14)%nat ->
     exists t',
       Nat.iter n simulate (Some t) = Some t' /\
       distance_to_target t' = 0.005 * sqrt 2 - INR n * 0.0005 /\
       0 < distance_to_target t') /\
  (forall n, (15 <= n)%nat ->
     exists t',
       Nat.iter n simulate (Some t) = Some t' /\
       driverLat t' = Some (trip_pickupLat t) /\
       driverLng t' = Some (trip_pickupLng t) /\
       distance_to_target t' = 0).
Proof.
  intros Ha Hb Hy Hx. pose proof sqrt2_bounds as Q.
  set (step := 0.0005 / sqrt 2).
  assert (S0 : 0 < step) by (apply Rdiv_lt_0_compat; lra).
  assert (S1 : step * sqrt 2 = 0.0005) by (unfold step; field; lra).
  assert (T0 : t = on_diagonal t 0.005)
    by (unfold on_diagonal; now rewrite with_driver_position_self).
  assert (I : forall n, (n <= 14)%nat ->
    Nat.iter n simulate (Some t) = Some (on_diagonal t (0.005 - INR n * step))).
  { induction n as [|n IH]; intros Hn.
    - cbn [Nat.iter nat_rect INR]. rewrite T0 at 1. f_equal.
      unfold on_diagonal. apply with_driver_position_eq; ring.
    - rewrite Nat.iter_succ, IH by lia.
      assert (B : INR n <= 13)
        by (replace 13 with (INR 13) by (cbn; lra); apply le_INR; lia).
      pose proof (pos_INR n) as B0.
      assert (C : 0.0005 <= (0.005 - INR n * step) * sqrt 2).
      { replace ((0.005 - INR n * step) * sqrt 2)
          with (0.005 * sqrt 2 - INR n * (step * sqrt 2)) by ring.
        rewrite S1. nra. }
      assert (P : 0 < 0.005 - INR n * step) by nra.
      rewrite tick_on_diagonal; [| nra | nra | exact C].
      f_equal. unfold on_diagonal. rewrite S_INR.
      apply with_driver_position_eq; unfold step; field; lra. }
  assert (B14 : forall n, (n <= 14)%nat ->
            0 < 0.005 * sqrt 2 - INR n * 0.0005).
  { intros n Hn.
    assert (B : INR n <= 14)
      by (replace 14 with (INR 14) by (cbn; lra); apply le_INR; lia).
    nra. }
  split.
  - intros n Hn. eexists. split; [apply (I n Hn)|].
    assert (P : 0 <= 0.005 - INR n * step).
    { pose proof (B14 n Hn). 
      assert (E : (0.005 - INR n * step) * sqrt 2
                  = 0.005 * sqrt 2 - INR n * 0.0005)
        by (rewrite <- S1; ring).
      nra. }
    rewrite distance_on_diagonal by exact P.
    replace ((0.005 - INR n * step) * sqrt 2)
      with (0.005 * sqrt 2 - INR n * 0.0005) by (rewrite <- S1; ring).
    split; [reflexivity | now apply B14].
  - assert (A : Nat.iter 15 simulate (Some t) = Some (on_diagonal t 0)).
    { rewrite Nat.iter_succ, I by lia.
      assert (E : (0.005 - INR 14 * step) * sqrt 2
                  = 0.005 * sqrt 2 - 14 * 0.0005).
      { replace (INR 14) with 14 by (cbn; lra). rewrite <- S1. ring. }
      assert (P : 0 <= 0.005 - INR 14 * step) by nra.
      apply snap_on_diagonal; [nra | nra | exact P | lra]. }
    assert (F : simulate (Some (on_diagonal t 0)) = Some (on_diagonal t 0)).
    { apply snap_on_diagonal; lra. }
    intros n Hn. exists (on_diagonal t 0).
    split.
    + replace n with ((n - 15) + 15)%nat by lia.
      induction (n - 15)%nat as [|k IH]; [exact A|].
      cbn [Nat.add]. rewrite Nat.iter_succ, IH. exact F.
    + unfold on_diagonal at 1 2. cbn [driverLat driverLng with_driver_position].
      split; [f_equal; ring|]. split; [f_equal; ring|].
      rewrite distance_on_diagonal by lra. ring.
Qed.

Lemma driver_arrives_with_the_fifteenth_tick_witness :
  let t := accept_trip searchingTrip in
  driverLat t = Some (trip_pickupLat t - 0.005) /\
  exists t',
    Nat.iter 15 simulate (Some t) = Some t' /\
    driverLat t' = Some (trip_pickupLat t) /\
    driverLng t' = Some (trip_pickupLng t).
Proof.
  cbn zeta.
  assert (A : driverLat (accept_trip searchingTrip)
              = Some (trip_pickupLat (accept_trip searchingTrip) - 0.005))
    by reflexivity.
  assert (B : driverLng (accept_trip searchingTrip)
              = Some (trip_pickupLng (accept_trip searchingTrip) - 0.005))
    by reflexivity.
  assert (Y : trip_pickupLat (accept_trip searchingTrip) < 0 \/
              0.005 < trip_pickupLat (accept_trip searchingTrip))
    by (right; cbn; lra).
  assert (X : trip_pickupLng (accept_trip searchingTrip) < 0 \/
              0.005 < trip_pickupLng (accept_trip searchingTrip))
    by (left; cbn; lra).
  destruct (@driver_arrives_with_the_fifteenth_tick
              (accept_trip searchingTrip) A B Y X) as (_ & H).
  destruct (H 15%nat (le_n 15)) as (t' & E & Ha & Hb & _).
  split; [exact A|]. exists t'. exact (conj E (conj Ha Hb)).
Defined.


(** One tick: the distance does not grow, neither coordinate moves by
    more than the speed, and only the position of the driver changes. *)
Lemma simulate_step_bounds (t t' : Trip) :
  simulate (Some t) = Some t' ->
  simulate None = None /\
  distance_to_target t' <= distance_to_target t /\
  Rabs (to_number (driverLat t') - to_number (driverLat t)) <= 0.0005 /\
  Rabs (to_number (driverLng t') - to_number (driverLng t)) <= 0.0005 /\
  (t' = t \/ exists y x, t' = with_driver_position y x t).
Proof.
  intros H. split; [reflexivity|].
  unfold simulate in H.
  destruct (negb (truthy_opt (driverLat t)) || negb (truthy_opt (driverLng t)))
    eqn:G.
  - injection H as <-. rewrite !Rminus_diag, Rabs_R0.
    repeat split; try lra. now left.
  - apply orb_false_iff in G as [Ga Gb].
    apply negb_false_iff in Ga, Gb.
    destruct (driverLat t) as [a|] eqn:Ea; [|discriminate Ga].
    destruct (driverLng t) as [b|] eqn:Eb; [|discriminate Gb].
    cbn [to_number] in H.
    set (dy := trip_pickupLat t - a) in *.
    set (dx := trip_pickupLng t - b) in *.
    fold (norm dx dy) in H.
    assert (D : distance_to_target t = norm dx dy)
      by (unfold distance_to_target; now rewrite Ea, Eb).
    destruct (Rabs_le_norm dx dy) as [Bx By].
    pose proof (norm_pos dx dy) as N0.
    destruct (Rlt_dec (norm dx dy) 0.0005) as [Hn|Hf];
      injection H as <-; rewrite D;
      unfold distance_to_target;
      cbn [with_driver_position trip_pickupLat trip_pickupLng driverLat
           driverLng to_number].
    + fold dy dx. repeat split.
      * rewrite !Rminus_diag. unfold norm.
        replace (0 * 0 + 0 * 0) with 0 by ring. rewrite sqrt_0. exact N0.
      * lra.
      * lra.
      * right. eauto.
    + assert (Hd : 0 < norm dx dy) by lra.
      destruct (atan2_direction dy dx Hd) as [C S]. rewrite C, S.
      repeat split.
      * replace (trip_pickupLng t - (b + dx / norm dx dy * 0.0005))
          with (dx - dx / norm dx dy * 0.0005) by (subst dx; ring).
        replace (trip_pickupLat t - (a + dy / norm dx dy * 0.0005))
          with (dy - dy / norm dx dy * 0.0005) by (subst dy; ring).
        rewrite norm_after_move by lra. lra.
      * replace (a + dy / norm dx dy * 0.0005 - a)
          with (dy / norm dx dy * 0.0005) by ring.
        rewrite Rabs_mult, (Rabs_pos_eq 0.0005) by lra.
        unfold Rdiv. rewrite Rabs_mult, (Rabs_pos_eq (/ norm dx dy)).
        -- assert (Rabs dy * / norm dx dy <= 1).
           { apply Rmult_le_reg_r with (norm dx dy); [exact Hd|].
             rewrite Rmult_assoc, Rinv_l by lra. lra. }
           nra.
        -- left. now apply Rinv_0_lt_compat.
      * replace (b + dx / norm dx dy * 0.0005 - b)
          with (dx / norm dx dy * 0.0005) by ring.
        rewrite Rabs_mult, (Rabs_pos_eq 0.0005) by lra.
        unfold Rdiv. rewrite Rabs_mult, (Rabs_pos_eq (/ norm dx dy)).
        -- assert (Rabs dx * / norm dx dy <= 1).
           { apply Rmult_le_reg_r with (norm dx dy); [exact Hd|].
             rewrite Rmult_assoc, Rinv_l by lra. lra. }
           nra.
        -- left. now apply Rinv_0_lt_compat.
      * right. eauto.
Qed.

Lemma simulate_some (t : Trip) : exists t', simulate (Some t) = Some t'.
Proof.
  unfold simulate.
  destruct (negb _ || negb _); [eauto|].
  cbn zeta. destruct (Rlt_dec _ _); eauto.
Qed.


(** ** The map *)

Lemma fetches_app (l l' : list MapComponent.MapCall) :
  fetches (l ++ l') = (fetches l + fetches l')%nat.
Proof. unfold fetches. now rewrite filter_app, length_app. Qed.

Lemma strict_neq_same (a : MapComponent.Coordinate) :
  MapComponent.strict_neq a a = false.
Proof.
  destruct a as [| |x]; cbn; try reflexivity.
  destruct (Req_dec_T x x); [reflexivity | contradiction].
Qed.

Lemma truthy_coordinate_Num (x : number) :
  x <> 0 -> MapComponent.truthy_coordinate (MapComponent.Num x) = true.
Proof. intros H. cbn. now apply truthy_nonzero. Qed.

(** The first two blocks of the effect request no route and touch
    neither the route layer nor the stored coordinates. *)
Lemma marker_blocks (c : number * number) (p : MapComponent.MapProps)
    (r : MapComponent.Refs) :
  let r' := MapComponent.update_destination p
              (MapComponent.update_marker c p r) in
  fetches (MapComponent.mapCalls r') = fetches (MapComponent.mapCalls r) /\
  MapComponent.routeLayerRef r' = MapComponent.routeLayerRef r /\
  MapComponent.prevCoordsRef r' = MapComponent.prevCoordsRef r.
Proof.
  cbn zeta.
  unfold MapComponent.update_destination, MapComponent.update_marker.
  destruct r as [mi mk dm rl pc cl]. cbn -[fetches].
  destruct mi, mk as [m|], dm as [d|];
    destruct (MapComponent.truthy_coordinate (MapComponent.destinationLat p)
              && MapComponent.truthy_coordinate
                   (MapComponent.destinationLng p));
    cbn -[fetches]; try destruct (Rlt_dec 0.005 _); cbn -[fetches];
    rewrite ?fetches_app; cbn; repeat split; lia.
Qed.

(** One render of an origin that has moved by at most half the
    threshold: no request. *)
Lemma effect_drift (c : number * number) (p : MapComponent.MapProps)
    (r : MapComponent.Refs) (layer : MapComponent.RouteLayer) :
  MapComponent.routeLayerRef r = Some layer ->
  MapComponent.destinationLat p
  = MapComponent.dLat (MapComponent.prevCoordsRef r) ->
  MapComponent.destinationLng p
  = MapComponent.dLng (MapComponent.prevCoordsRef r) ->
  Rabs (MapComponent.prev_lat (MapComponent.prevCoordsRef r)
        - MapComponent.lat p) <= 0.001 ->
  Rabs (MapComponent.prev_lng (MapComponent.prevCoordsRef r)
        - MapComponent.lng p) <= 0.001 ->
  let r' := MapComponent.effect true c p r in
  fetches (MapComponent.mapCalls r') = fetches (MapComponent.mapCalls r) /\
  MapComponent.routeLayerRef r' = Some layer /\
  MapComponent.prevCoordsRef r' = coords_of p.
Proof.
  intros L Dy Dx Hy Hx. cbn zeta.
  destruct (marker_blocks c p r) as (F & RL & PC).
  unfold MapComponent.effect. cbn [negb].
  set (r1 := MapComponent.update_destination p
               (MapComponent.update_marker c p r)) in *.
  unfold MapComponent.update_route. cbn -[fetches].
  assert (W : MapComponent.route_wanted p r1 = false).
  { unfold MapComponent.route_wanted, MapComponent.hasDestChanged,
      MapComponent.hasOriginChangedSignificantly.
    rewrite PC, RL, L, Dy, Dx, !strict_neq_same.
    destruct (Rlt_dec 0.002 _); [lra|].
    destruct (Rlt_dec 0.002 _); [lra|].
    cbn. apply andb_false_r. }
  rewrite W, fetches_app. cbn. rewrite F, RL, L.
  repeat split. lia.
Qed.

(** X22: the route is requested by comparison with the previous
    render, not with the render of the last request: once a route is
    drawn, a sequence of renders that keeps the destination and moves
    each coordinate of the origin by at most 0.001, half the threshold
    0.002 of the map, from one render to the next never requests the
    route again, however far the origin gets from where the route was
    requested, and the drawn route stays. *)
Theorem slow_drift_never_refetches_the_route
    (ps : list ((number * number) * MapComponent.MapProps)) :
  forall (r : MapComponent.Refs) (layer : MapComponent.RouteLayer),
    MapComponent.routeLayerRef r = Some layer ->
    drifts (MapComponent.prevCoordsRef r) ps ->
    let r' := MapComponent.renders r ps in
    fetches (MapComponent.mapCalls r') = fetches (MapComponent.mapCalls r) /\
    MapComponent.routeLayerRef r' = Some layer.
Proof.
  induction ps as [|[c p] rest IH]; intros r layer L D; [now split|].
  cbn zeta. cbn [MapComponent.renders fold_left fst snd].
  destruct D as (Dy & Dx & Hy & Hx & D).
  destruct (effect_drift c p r L Dy Dx Hy Hx) as (F & L1 & PC).
  rewrite <- PC in D.
  destruct (IH _ _ L1 D) as (F' & L').
  unfold MapComponent.renders in F', L'. rewrite F', L', F. now split.
Qed.

Lemma slow_drift_never_refetches_the_route_witness :
  let r := drawnMap (plazaProps 4.595 (-74.085)) in
  let ps := [((4.595, -74.085), plazaProps 4.5958 (-74.085));
             ((4.595, -74.085), plazaProps 4.5966 (-74.085));
             ((4.595, -74.085), plazaProps 4.5974 (-74.085))] in
  0.002 < 4.5974 - 4.595 /\
  fetches (MapComponent.mapCalls (MapComponent.renders r ps)) = 1%nat.
Proof.
  cbn zeta.
  assert (A : forall a b : R, a - b = -0.0008 \/ a - b = 0 ->
                              Rabs (a - b) <= 0.001).
  { intros a b [-> | ->]; [rewrite Rabs_left | rewrite Rabs_R0]; lra. }
  assert (D : drifts
                (MapComponent.prevCoordsRef
                   (drawnMap (plazaProps 4.595 (-74.085))))
                [((4.595, -74.085), plazaProps 4.5958 (-74.085));
                 ((4.595, -74.085), plazaProps 4.5966 (-74.085));
                 ((4.595, -74.085), plazaProps 4.5974 (-74.085))]).
  { cbn. repeat split; try reflexivity; apply A; lra. }
  destruct (@slow_drift_never_refetches_the_route _
              (drawnMap (plazaProps 4.595 (-74.085)))
              (MapComponent.GeoJson "LineString") eq_refl D) as (F & _).
  split; [lra | exact F].
Defined.


(** X23: the destination marker follows the props of the render. A
    destination with both coordinates different from 0 has its marker at
    that point, and while no route is drawn the render requests one, in
    the order longitude, latitude. A destination with a coordinate that
    is 0, [null] or missing is no destination: the marker is removed if
    there was one and no route is requested, while a route drawn before
    stays on the map. *)
Theorem destination_marker_follows_the_props (c : number * number)
    (p : MapComponent.MapProps) (r : MapComponent.Refs) :
  let r' := MapComponent.effect true c p r in
  (forall y x,
     MapComponent.destinationLat p = MapComponent.Num y ->
     MapComponent.destinationLng p = MapComponent.Num x ->
     y <> 0 -> x <> 0 ->
     MapComponent.destinationMarkerRef r' = Some (y, x) /\
     (MapComponent.routeLayerRef r = None ->
      exists l,
        MapComponent.mapCalls r'
        = (MapComponent.mapCalls r ++ l ++
           [MapComponent.FetchRoute
              (MapComponent.lng p, MapComponent.lat p) (x, y);
            MapComponent.InvalidateSizeLater])%list /\
        fetches l = 0%nat)) /\
  (MapComponent.truthy_coordinate (MapComponent.destinationLat p) = false \/
   MapComponent.truthy_coordinate (MapComponent.destinationLng p) = false ->
   MapComponent.destinationMarkerRef r' = None /\
   fetches (MapComponent.mapCalls r') = fetches (MapComponent.mapCalls r) /\
   MapComponent.routeLayerRef r' = MapComponent.routeLayerRef r /\
   (In MapComponent.RemoveDestinationMarker (MapComponent.mapCalls r') <->
    In MapComponent.RemoveDestinationMarker (MapComponent.mapCalls r) \/
    MapComponent.destinationMarkerRef r <> None)).
Proof.
  cbn zeta. unfold MapComponent.effect. cbn [negb]. split.
  - intros y x Ey Ex Hy Hx.
    unfold MapComponent.update_route, MapComponent.route_wanted,
      MapComponent.update_destination.
    rewrite Ey, Ex, !truthy_coordinate_Num by assumption. cbn.
    split; [reflexivity|]. intros L.
    unfold MapComponent.update_marker.
    destruct r as [mi mk dm rl pc cl]. cbn in L. subst rl. cbn.
    destruct mi, mk as [m|]; cbn; try destruct (Rlt_dec 0.005 _); cbn;
      rewrite ?orb_true_r; rewrite <- ?app_assoc; cbn.
    all: first
      [ exists []; cbn; split; reflexivity
      | eexists [_]; cbn; split; reflexivity ].
  - intros H.
    assert (B : MapComponent.truthy_coordinate (MapComponent.destinationLat p)
                && MapComponent.truthy_coordinate
                     (MapComponent.destinationLng p) = false).
    { destruct H as [-> | ->]; [reflexivity | apply andb_false_r]. }
    unfold MapComponent.update_route, MapComponent.route_wanted,
      MapComponent.update_destination, MapComponent.update_marker.
    rewrite B.
    destruct r as [mi mk dm rl pc cl]. cbn -[fetches].
    destruct mi, mk as [m|], dm as [d|]; cbn -[fetches];
      try destruct (Rlt_dec 0.005 _); cbn -[fetches];
      rewrite ?fetches_app; cbn; rewrite ?Nat.add_0_r;
      (split; [reflexivity|]); (split; [reflexivity|]);
      (split; [reflexivity|]);
      rewrite ?in_app_iff; cbn; intuition congruence.
Qed.





(** One tick, seen by the map of the trip view. *)
Lemma tick_drifts (t t' : Trip) :
  simulate (Some t) = Some t' ->
  driver_off_the_axes t -> driver_off_the_axes t' ->
  MapComponent.destinationLat (trip_map_props t')
  = MapComponent.destinationLat (trip_map_props t) /\
  MapComponent.destinationLng (trip_map_props t')
  = MapComponent.destinationLng (trip_map_props t) /\
  Rabs (MapComponent.lat (trip_map_props t)
        - MapComponent.lat (trip_map_props t')) <= 0.0005 /\
  Rabs (MapComponent.lng (trip_map_props t)
        - MapComponent.lng (trip_map_props t')) <= 0.0005.
Proof.
  intros E [Ay Ax] [By Bx].
  destruct (@simulate_step_bounds t t' E) as (_ & _ & Hy & Hx & F).
  destruct F as [-> | (y & x & ->)].
  - cbn. rewrite !Rminus_diag, Rabs_R0. repeat split; lra.
  - assert (Ny : y <> 0) by (intros ->; now apply By).
    assert (Nx : x <> 0) by (intros ->; now apply Bx).
    unfold simulate in E.
    destruct (driverLat t) as [a|] eqn:Ea, (driverLng t) as [b|] eqn:Eb;
      cbn [truthy_opt negb orb] in E;
      try (rewrite ?orb_true_r in E; injection E as E;
           pose proof (f_equal driverLat E) as E1;
           pose proof (f_equal driverLng E) as E2;
           cbn in E1, E2; congruence).
    assert (Na : a <> 0) by (intros ->; now apply Ay).
    assert (Nb : b <> 0) by (intros ->; now apply Ax).
    unfold trip_map_props.
    cbn [MapComponent.lat MapComponent.lng MapComponent.destinationLat
         MapComponent.destinationLng with_driver_position driverLat driverLng
         trip_pickupLat trip_pickupLng trip_destinationLat
         trip_destinationLng].
    rewrite Ea, Eb, !coordinate_or_truthy by assumption.
    cbn [with_driver_position driverLat driverLng to_number] in Hy, Hx.
    rewrite (Rabs_minus_sym a y), (Rabs_minus_sym b x).
    repeat split; lra.
Qed.

(** A driver further than [n] steps from both axes stays off them for
    [n] ticks. *)
Lemma ticks_off_the_axes (n : nat) :
  forall (t : Trip) (a b : number),
    driverLat t = Some a -> driverLng t = Some b ->
    INR n * 0.0005 < Rabs a -> INR n * 0.0005 < Rabs b ->
    Forall driver_off_the_axes (ticks n t).
Proof.
  induction n as [|n IH]; intros t a b Ea Eb Ha Hb; cbn [ticks];
    [constructor|].
  destruct (simulate_some t) as (t' & E). rewrite E.
  destruct (@simulate_step_bounds t t' E) as (_ & _ & Hy & Hx & F).
  rewrite Ea in Hy. rewrite Eb in Hx. cbn [to_number] in Hy, Hx.
  rewrite S_INR in Ha, Hb. pose proof (pos_INR n) as N.
  assert (S : exists a' b', driverLat t' = Some a' /\ driverLng t' = Some b').
  { destruct F as [-> | (y & x & ->)]; [exists a, b | exists y, x];
      now split. }
  destruct S as (a' & b' & Ea' & Eb').
  rewrite Ea' in Hy. rewrite Eb' in Hx. cbn [to_number] in Hy, Hx.
  pose proof (Rabs_triang_inv a a') as Ta.
  pose proof (Rabs_triang_inv b b') as Tb.
  rewrite (Rabs_minus_sym a a') in Ta. rewrite (Rabs_minus_sym b b') in Tb.
  constructor.
  - split; [rewrite Ea' | rewrite Eb']; intros K; injection K as K;
      subst; rewrite Rabs_R0 in *; lra.
  - apply (IH t' a' b' Ea' Eb'); lra.
Qed.

(** X25: the approach of the driver never refreshes the route. The trip
    view hands the position of the driver to the map at every tick of
    the simulation; a tick moves each coordinate by at most 0.0005,
    which is below the threshold 0.002 of the map, and the map compares
    with the previous render only. So once a route is drawn, no number
    of ticks makes the map request the route again, as long as no
    coordinate of the driver becomes 0 on the way. *)
Theorem approach_never_refreshes_the_route (n : nat) :
  forall (t : Trip) (r : MapComponent.Refs)
         (layer : MapComponent.RouteLayer) (centres : list (number * number)),
    MapComponent.routeLayerRef r = Some layer ->
    MapComponent.prevCoordsRef r = coords_of (trip_map_props t) ->
    driver_off_the_axes t ->
    Forall driver_off_the_axes (ticks n t) ->
    let r' := MapComponent.renders r
                (combine centres (map trip_map_props (ticks n t))) in
    fetches (MapComponent.mapCalls r') = fetches (MapComponent.mapCalls r) /\
    MapComponent.routeLayerRef r' = Some layer.
Proof.
  induction n as [|n IH]; intros t r layer centres L P A F; cbn zeta.
  - cbn. destruct centres; cbn; now split.
  - cbn [ticks] in *.
    destruct (simulate (Some t)) as [t'|] eqn:E;
      [|cbn; destruct centres; cbn; now split].
    destruct centres as [|c centres]; [cbn; now split|].
    inversion F as [|? ? A' F']; subst.
    destruct (@tick_drifts t t' E A A') as (Dy & Dx & Hy & Hx).
    cbn [map combine MapComponent.renders fold_left fst snd].
    destruct (@effect_drift c (trip_map_props t') r layer L) as (F1 & L1 & P1);
      rewrite ?P; try assumption; try (cbn [coords_of MapComponent.prev_lat
        MapComponent.prev_lng]; lra).
    destruct (IH t' _ layer centres L1 P1 A' F') as (F2 & L2).
    unfold MapComponent.renders in F2, L2. rewrite F2, L2, F1. now split.
Qed.

Lemma approach_never_refreshes_the_route_witness :
  let t := accept_trip searchingTrip in
  let r := drawnMap (trip_map_props t) in
  let centres := [(4.595, -74.085); (4.595, -74.085); (4.595, -74.085)] in
  driver_off_the_axes t /\
  Forall driver_off_the_axes (ticks 3 t) /\
  fetches (MapComponent.mapCalls
             (MapComponent.renders r
                (combine centres (map trip_map_props (ticks 3 t)))))
  = 1%nat.
Proof.
  cbn zeta.
  assert (Ba : INR 3 * 0.0005 < Rabs (4.60 - 0.005))
    by (rewrite Rabs_right by lra; cbn; lra).
  assert (Bb : INR 3 * 0.0005 < Rabs (-74.08 - 0.005))
    by (rewrite Rabs_left by lra; cbn; lra).
  assert (A : driver_off_the_axes (accept_trip searchingTrip)).
  { split; cbn; intros K; injection K as K; lra. }
  assert (F : Forall driver_off_the_axes (ticks 3 (accept_trip searchingTrip)))
    by exact (@ticks_off_the_axes 3 (accept_trip searchingTrip)
                (4.60 - 0.005) (-74.08 - 0.005) eq_refl eq_refl Ba Bb).
  destruct (@approach_never_refreshes_the_route 3
              (accept_trip searchingTrip)
              (drawnMap (trip_map_props (accept_trip searchingTrip)))
              (MapComponent.GeoJson "LineString")
              [(4.595, -74.085); (4.595, -74.085); (4.595, -74.085)]
              eq_refl eq_refl A F) as (H & _).
  exact (conj A (conj F H)).
Defined.
